(** * RaySports sales dashboard: the filtering and aggregation pipeline

    A shallow embedding of [app.py].  The script reads one workbook into a
    pandas data frame, narrows it with three sidebar selections and derives
    the figures every chart is drawn from.  The data frame is modelled as the
    list of its rows, in index order; a column is the list obtained by
    projecting one field out of every row.

    Amounts ([Sales Amount], [Cost Price], the target) are the exact rational
    values of the cells, and [sum] adds them without rounding.  Where a
    property depends on the binary64 arithmetic of the library, the same
    column is read as binary64 numbers and added by [sum64] and
    [group_sum64], which round as the machine does.  A division is partial,
    so that the guards the script puts in front of its two divisions are
    visible in the model.  Every cell of a row is present and of the kind
    section 6 of the specification requires of the input file (no blank
    cell, dates in the date columns, numbers in the amount columns). *)

From Stdlib Require Import List Bool ZArith QArith Qminmax String Lia.
From Stdlib Require Import Sorted Permutation OrderedTypeEx.
From Stdlib Require PrimFloat.
Import ListNotations.

Open Scope Z_scope.

(** ** Calendar values *)

(** The month of a timestamp.  [month_num] is pandas' [.dt.month] and
    [month_abbr] is [strftime('%b')] in the C locale. *)
Inductive Month : Set :=
  | Jan | Feb | Mar | Apr | May | Jun | Jul | Aug | Sep | Oct | Nov | Dec.

Definition month_num (m : Month) : Z :=
  match m with
  | Jan => 1 | Feb => 2 | Mar => 3 | Apr => 4 | May => 5 | Jun => 6
  | Jul => 7 | Aug => 8 | Sep => 9 | Oct => 10 | Nov => 11 | Dec => 12
  end.

Definition month_abbr (m : Month) : string :=
  match m with
  | Jan => "Jan" | Feb => "Feb" | Mar => "Mar" | Apr => "Apr"
  | May => "May" | Jun => "Jun" | Jul => "Jul" | Aug => "Aug"
  | Sep => "Sep" | Oct => "Oct" | Nov => "Nov" | Dec => "Dec"
  end%string.

Record Timestamp : Set := mkTimestamp {
  ts_year : Z;
  ts_month : Month;
  ts_day : Z
}.

(** ** Rows *)

(** One line of the sheet, restricted to the eight columns the script keeps. *)
Record RawRow : Set := mkRawRow {
  raw_Invoice_Date : Timestamp;
  raw_Sales_Order_Date : Timestamp;
  raw_Platform : string;
  raw_Brand : string;
  raw_Order_Status : string;
  raw_Quantity : Z;
  raw_Sales_Amount : Q;
  raw_Cost_Price : Q
}.

(** One row of [df] once [load_data] has added its four derived columns. *)
Record Row : Set := mkRow {
  Invoice_Date : Timestamp;
  Sales_Order_Date : Timestamp;
  Platform : string;
  Brand : string;
  Order_Status : string;
  Quantity : Z;
  Sales_Amount : Q;
  Cost_Price : Q;
  Year : Z;
  MonthNum : Z;
  MonthName : string;
  Profit : Q
}.

Definition DataFrame : Set := list Row.

(** ** Loading *)

Inductive Exception : Set :=
  | FileNotFoundError
  | ValueError
  | KeyError (missing : list string)
  | AttributeError
  | ZeroDivisionError
  | StreamlitAPIException.

Inductive result (A : Type) : Type :=
  | Ok (a : A)
  | Raise (e : Exception).

Arguments Ok {A} a.
Arguments Raise {A} e.

Definition bind {A B : Type} (r : result A) (k : A -> result B) : result B :=
  match r with
  | Ok a => k a
  | Raise e => Raise e
  end.

Notation "x <- r ;; k" := (bind r (fun x => k))
  (at level 61, r at next level, right associativity).

(** What sits at the path the script reads: nothing, a file the reader
    cannot parse, or a sheet with its column labels and its lines.  The
    fields of a line are only ever read for labels of [columns]: a load of a
    sheet that lacks one of the eight labels stops before touching a line. *)
Inductive Source : Set :=
  | Missing
  | Unreadable
  | Workbook (columns : list string) (lines : list RawRow).

Record Sheet : Set := mkSheet {
  sheet_columns : list string;
  sheet_lines : list RawRow
}.

Definition read_excel (src : Source) : result Sheet :=
  match src with
  | Missing => Raise FileNotFoundError
  | Unreadable => Raise ValueError
  | Workbook cols ls => Ok (mkSheet cols ls)
  end.

Definition required_columns : list string :=
  ["Invoice Date"; "Sales Order Date"; "Platform"; "Brand"; "Order Status";
   "Quantity"; "Sales Amount"; "Cost Price"]%string.

Definition has_column (cols : list string) (c : string) : bool :=
  existsb (String.eqb c) cols.

(** [df[[...]]]: a list of labels selects those columns and raises
    [KeyError] naming the labels that are absent. *)
Definition select_columns (want : list string) (s : Sheet) : result (list RawRow) :=
  match filter (fun c => negb (has_column (sheet_columns s) c)) want with
  | [] => Ok (sheet_lines s)
  | c :: cs => Raise (KeyError (c :: cs))
  end.

Definition derive (r : RawRow) : Row :=
  {| Invoice_Date := raw_Invoice_Date r;
     Sales_Order_Date := raw_Sales_Order_Date r;
     Platform := raw_Platform r;
     Brand := raw_Brand r;
     Order_Status := raw_Order_Status r;
     Quantity := raw_Quantity r;
     Sales_Amount := raw_Sales_Amount r;
     Cost_Price := raw_Cost_Price r;
     Year := ts_year (raw_Sales_Order_Date r);
     MonthNum := month_num (ts_month (raw_Sales_Order_Date r));
     MonthName := month_abbr (ts_month (raw_Sales_Order_Date r));
     Profit := (raw_Sales_Amount r - raw_Cost_Price r)%Q |}.

(** The [.dt] accessor exists on a column of timestamps only.  The date
    column of a sheet without lines holds no timestamp and is not one: the
    accessor raises [AttributeError] on it. *)
Definition dt (col : list Timestamp) : result (list Timestamp) :=
  match col with
  | [] => Raise AttributeError
  | _ :: _ => Ok col
  end.

Definition load_data (path : Source) : result DataFrame :=
  sheet <- read_excel path ;;
  kept <- select_columns required_columns sheet ;;
  dates <- dt (map raw_Sales_Order_Date kept) ;;
  Ok (map derive kept).

(** ** Column helpers of the data frame library *)

Section Columns.
Context {A : Type} (eqb : A -> A -> bool).

(** [Series.unique] and [drop_duplicates]: the values in order of first
    appearance. *)
Fixpoint unique (col : list A) : list A :=
  match col with
  | [] => []
  | x :: rest => x :: filter (fun y => negb (eqb x y)) (unique rest)
  end.

(** [Series.isin]: one flag per row. *)
Definition isin (col values : list A) : list bool :=
  map (fun x => existsb (eqb x) values) col.
End Columns.

(** Element-wise [&] of two boolean series. *)
Definition mask_and (a b : list bool) : list bool :=
  map (fun p => fst p && snd p) (combine a b).

(** [df[mask]]: the rows whose flag is set, in index order. *)
Fixpoint boolean_index {A : Type} (df : list A) (mask : list bool) : list A :=
  match df, mask with
  | r :: df', b :: mask' =>
      if b then r :: boolean_index df' mask' else boolean_index df' mask'
  | _, _ => []
  end.

(** [sort_values] on one integer column, ascending, written as a stable
    insertion sort.  The two frames the script sorts arrive with their keys
    already in ascending order or pairwise distinct, where every sorting
    procedure returns the same frame. *)
Fixpoint insert_asc {A : Type} (key : A -> Z) (x : A) (l : list A) : list A :=
  match l with
  | [] => [x]
  | y :: l' => if key x <=? key y then x :: l else y :: insert_asc key x l'
  end.

Definition sort_values {A : Type} (key : A -> Z) (l : list A) : list A :=
  fold_right (insert_asc key) [] l.

(** [Series.sum] over the exact values of the cells: the additions are
    carried out without rounding and without overflow.  The number the
    library returns for a binary64 column is [sum64] below. *)
Definition sum (col : list Q) : Q := fold_left Qplus col 0%Q.

(** ** Sidebar *)

Definition pair_eqb (a b : Z * string) : bool :=
  (fst a =? fst b) && String.eqb (snd a) (snd b).

Definition month_lookup (df : DataFrame) : list (Z * string) :=
  sort_values fst (unique pair_eqb (map (fun r => (MonthNum r, MonthName r)) df)).

Definition all_months (df : DataFrame) : list string :=
  map snd (month_lookup df).

(** The check-box flags kept in the session, by month name. *)
Definition SessionState : Type := string -> option bool.

Definition set_flag (st : SessionState) (m : string) (status : bool) : SessionState :=
  fun k => if String.eqb k m then Some status else st k.

Definition update_months (months : list string) (status : bool)
    (st : SessionState) : SessionState :=
  fold_left (fun s m => set_flag s m status) months st.

Definition initialise (months : list string) (st : SessionState) : SessionState :=
  match st "Jan"%string with
  | None => update_months months true st
  | Some _ => st
  end.

Definition checkbox (st : SessionState) (m : string) : bool :=
  match st m with
  | Some b => b
  | None => false
  end.

Definition selected_months (months : list string) (st : SessionState) : list string :=
  filter (checkbox st) months.

(** What the sidebar hands to the rest of the script. *)
Record Controls : Type := mkControls {
  sales_target : Q;
  year_filter : list Z;
  month_flags : SessionState;
  platform_filter : list string
}.

(** ** Filter *)

Definition filtered_df (df : DataFrame) (years : list Z)
    (months platforms : list string) : DataFrame :=
  boolean_index df
    (mask_and
       (mask_and (isin Z.eqb (map Year df) years)
                 (isin String.eqb (map MonthName df) months))
       (isin String.eqb (map Platform df) platforms)).

(** ** Scalar figures *)

Definition Qgt_bool (a b : Q) : bool := negb (Qle_bool a b).

(** [a / b]; undefined on a zero divisor. *)
Definition div (a b : Q) : option Q :=
  if Qeq_bool b 0 then None else Some (a / b)%Q.

(** The built-in [max] of two arguments: the first one unless the second is
    strictly greater. *)
Definition max (a b : Q) : Q := if Qgt_bool b a then b else a.

Definition current_sales (view : DataFrame) : Q := sum (map Sales_Amount view).

Definition total_profit (view : DataFrame) : Q := sum (map Profit view).

Definition progress_ratio (sales target : Q) : option Q :=
  if Qgt_bool target 0 then div sales target else Some 0%Q.

Definition margin (profit sales : Q) : option Q :=
  if Qgt_bool sales 0
  then option_map (fun x => (x * 100)%Q) (div profit sales)
  else Some 0%Q.

Definition rem_to_goal (target sales : Q) : Q := max (target - sales)%Q 0%Q.

(** The line printed next to the progress bar. *)
Inductive GoalNote : Set :=
  | Gap (amount : Q)
  | Surplus (amount : Q).

Definition goal_note (target sales : Q) : GoalNote :=
  if Qgt_bool (rem_to_goal target sales) 0
  then Gap (rem_to_goal target sales)
  else Surplus (sales - target)%Q.

(** ** Grouping *)

Section GroupBy.
Context {K : Type} (cmp : K -> K -> comparison).

Definition key_eqb (a b : K) : bool :=
  match cmp a b with
  | Eq => true
  | _ => false
  end.

(** The distinct keys of a column in ascending order ([sort=True]). *)
Fixpoint insert_key (k : K) (keys : list K) : list K :=
  match keys with
  | [] => [k]
  | k' :: rest =>
      match cmp k k' with
      | Lt => k :: keys
      | Eq => keys
      | Gt => k' :: insert_key k rest
      end
  end.

Definition group_keys (col : list K) : list K :=
  fold_right insert_key [] col.

(** [df.groupby(key)]: one group per distinct key, keys ascending, every
    group holding its rows in index order. *)
Definition groupby (key : Row -> K) (df : DataFrame) : list (K * DataFrame) :=
  map (fun k => (k, filter (fun r => key_eqb (key r) k) df))
      (group_keys (map key df)).
End GroupBy.

(** Order on the two-column key [MonthNum, MonthName]. *)
Definition month_key_compare (a b : Z * string) : comparison :=
  match fst a ?= fst b with
  | Eq => String.compare (snd a) (snd b)
  | c => c
  end.

Definition month_key (r : Row) : Z * string := (MonthNum r, MonthName r).

Record MonthlyRow : Set := mkMonthlyRow {
  mp_MonthNum : Z;
  mp_MonthName : string;
  mp_Sales_Amount : Q;
  mp_Profit : Q
}.

Definition monthly_total (g : (Z * string) * DataFrame) : MonthlyRow :=
  {| mp_MonthNum := fst (fst g);
     mp_MonthName := snd (fst g);
     mp_Sales_Amount := sum (map Sales_Amount (snd g));
     mp_Profit := sum (map Profit (snd g)) |}.

Definition monthly_perf (view : DataFrame) : list MonthlyRow :=
  sort_values mp_MonthNum
    (map monthly_total (groupby month_key_compare month_key view)).

Definition brand_sales (view : DataFrame) : list (string * Q) :=
  map (fun g => (fst g, sum (map Sales_Amount (snd g))))
      (groupby String.compare Brand view).

(** [nlargest(n, column)] with [keep='first']: a stable sort, greatest value
    first, cut after [n] rows. *)
Fixpoint insert_desc {A : Type} (val : A -> Q) (x : A) (l : list A) : list A :=
  match l with
  | [] => [x]
  | y :: l' =>
      if Qle_bool (val y) (val x) then x :: l else y :: insert_desc val x l'
  end.

Definition sort_desc {A : Type} (val : A -> Q) (l : list A) : list A :=
  fold_right (insert_desc val) [] l.

Definition nlargest {A : Type} (n : nat) (val : A -> Q) (l : list A) : list A :=
  firstn n (sort_desc val l).

Definition top_5 (view : DataFrame) : list string :=
  map fst (nlargest 5 snd (brand_sales view)).

(** ** The figures of a run *)

(** [render] gathers what the script computes from the data frame and the
    sidebar when it runs to its last line; whether a run gets there is
    decided by [app] below. *)
Record Dashboard : Type := mkDashboard {
  dash_view : DataFrame;
  dash_current_sales : Q;
  dash_progress_ratio : option Q;
  dash_total_profit : Q;
  dash_margin : option Q;
  dash_goal_note : GoalNote;
  dash_monthly_perf : list MonthlyRow;
  dash_top_5 : list string
}.

Definition render (df : DataFrame) (ui : Controls) : Dashboard :=
  let months := all_months df in
  let view :=
    filtered_df df (year_filter ui)
      (selected_months months (initialise months (month_flags ui)))
      (platform_filter ui) in
  {| dash_view := view;
     dash_current_sales := current_sales view;
     dash_progress_ratio := progress_ratio (current_sales view) (sales_target ui);
     dash_total_profit := total_profit view;
     dash_margin := margin (total_profit view) (current_sales view);
     dash_goal_note := goal_note (sales_target ui) (current_sales view);
     dash_monthly_perf := monthly_perf view;
     dash_top_5 := top_5 view |}.

(** ** A small data set: the example of the specification *)

Definition ts (y : Z) (m : Month) : Timestamp := mkTimestamp y m 1.

Definition example_lines : list RawRow :=
  [ mkRawRow (ts 2023 Jan) (ts 2023 Jan) "Amazon" "Nike" "Shipped" 1 100 60;
    mkRawRow (ts 2023 Feb) (ts 2023 Feb) "eBay" "Nike" "Shipped" 1 200 150;
    mkRawRow (ts 2024 Jan) (ts 2024 Jan) "Amazon" "Adidas" "Shipped" 1 300 100
  ]%string%Q.

Definition example_df : DataFrame := map derive example_lines.

Definition example_view : DataFrame :=
  filtered_df example_df [2023] ["Jan"; "Feb"]%string ["Amazon"; "eBay"]%string.

(** * Vocabulary of the properties *)

(** [w] is [l] with some rows left out, the others in their order. *)
Inductive Subseq {A : Type} : list A -> list A -> Prop :=
  | Subseq_done : Subseq [] []
  | Subseq_keep (x : A) (w l : list A) : Subseq w l -> Subseq (x :: w) (x :: l)
  | Subseq_drop (x : A) (w l : list A) : Subseq w l -> Subseq w (x :: l).

(** The row passes the three membership tests. *)
Definition selected (years : list Z) (months platforms : list string)
    (r : Row) : Prop :=
  In (Year r) years /\ In (MonthName r) months /\ In (Platform r) platforms.

Definition keep (years : list Z) (months platforms : list string)
    (r : Row) : bool :=
  existsb (Z.eqb (Year r)) years
  && existsb (String.eqb (MonthName r)) months
  && existsb (String.eqb (Platform r)) platforms.

(** The amounts the line next to the progress bar reports; the one it does
    not print counts as zero. *)
Definition gap_shown (n : GoalNote) : Q :=
  match n with
  | Gap g => g
  | Surplus _ => 0%Q
  end.

Definition surplus_shown (n : GoalNote) : Q :=
  match n with
  | Gap _ => 0%Q
  | Surplus s => s
  end.

(** Every value of [col] is among [values]. *)
Definition covers {A : Type} (eqb : A -> A -> bool) (values col : list A) : bool :=
  forallb (fun x => existsb (eqb x) values) col.

Definition same_values {A : Type} (eqb : A -> A -> bool) (values col : list A) : bool :=
  covers eqb values col && covers eqb col values.

(** The selection names exactly the years, the month names and the
    platforms that occur in the data set. *)
Definition full_selection (df : DataFrame) (years : list Z)
    (months platforms : list string) : bool :=
  same_values Z.eqb years (map Year df)
  && same_values String.eqb months (map MonthName df)
  && same_values String.eqb platforms (map Platform df).

(** The reasons for which the load gives up. *)
Definition lacks_column (path : Source) : Prop :=
  exists cols lines c,
    path = Workbook cols lines /\ In c required_columns /\ ~ In c cols.

Definition load_fails (path : Source) : Prop :=
  path = Missing \/ path = Unreadable \/ lacks_column path.

(** What grouping needs of the order on its keys. *)
Class KeyOrder {K : Type} (cmp : K -> K -> comparison) : Prop := {
  cmp_eq : forall a b, cmp a b = Eq <-> a = b;
  cmp_antisym : forall a b, cmp b a = CompOpp (cmp a b);
  cmp_trans : forall a b c, cmp a b = Lt -> cmp b c = Lt -> cmp a c = Lt
}.

Definition klt {K : Type} (cmp : K -> K -> comparison) (a b : K) : Prop :=
  cmp a b = Lt.

(** The rows of one (month number, month name) group. *)
Definition month_group (view : DataFrame) (n : Z) (name : string) : DataFrame :=
  filter (fun r => pair_eqb (month_key r) (n, name)) view.

Definition mp_key (e : MonthlyRow) : Z * string := (mp_MonthNum e, mp_MonthName e).

(** The total sales of one brand in a view. *)
Definition brand_total (view : DataFrame) (b : string) : Q :=
  sum (map Sales_Amount (filter (fun r => String.eqb (Brand r) b) view)).

(** [b1] is ranked ahead of [b2]: it sold more, or as much while coming
    first in the order of the groups, which is the order of the brand names. *)
Definition ranks_before (view : DataFrame) (b1 b2 : string) : Prop :=
  (brand_total view b2 < brand_total view b1)%Q
  \/ ((brand_total view b1 == brand_total view b2)%Q /\ String.compare b1 b2 = Lt).

Definition sells_no_less (view : DataFrame) (b1 b2 : string) : Prop :=
  (brand_total view b2 <= brand_total view b1)%Q.

(** The month columns of the row come from one calendar month. *)
Definition calendar_row (r : Row) : Prop :=
  exists m, MonthNum r = month_num m /\ MonthName r = month_abbr m.

(** [a] goes ahead of [b] in a stable sort, greatest value first: a greater
    value, or the same value and an earlier place in the frame that was
    sorted. *)
Definition rank {A : Type} (val : A -> Q) (pos : A -> A -> Prop) (a b : A) : Prop :=
  (val b < val a)%Q \/ ((val a == val b)%Q /\ pos a b).

(** The example data set as a workbook, the same workbook without its
    Brand column, and a fresh session with the target of the example. *)
Definition example_source : Source := Workbook required_columns example_lines.

Definition no_brand_source : Source :=
  Workbook
    ["Invoice Date"; "Sales Order Date"; "Platform"; "Order Status";
     "Quantity"; "Sales Amount"; "Cost Price"]%string
    example_lines.

Definition example_ui : Controls :=
  {| sales_target := 250;
     year_filter := [2023];
     month_flags := fun _ => None;
     platform_filter := ["Amazon"; "eBay"]%string |}.

(** The selection a fresh session starts from: every year, every month
    ticked, every platform. *)
Definition default_years (df : DataFrame) : list Z := unique Z.eqb (map Year df).

Definition default_months (df : DataFrame) : list string :=
  selected_months (all_months df) (initialise (all_months df) (fun _ => None)).

Definition default_platforms (df : DataFrame) : list string :=
  unique String.eqb (map Platform df).

(** * The rest of the page *)

(** ** Sidebar options *)

(** The built-in [sorted], a stable sort: [x] is put in front of the first
    element it does not exceed.  [reverse=True] is the same sort under the
    converse order. *)
Fixpoint insert_sorted {A : Type} (leb : A -> A -> bool) (x : A) (l : list A) : list A :=
  match l with
  | [] => [x]
  | y :: l' => if leb x y then x :: l else y :: insert_sorted leb x l'
  end.

Definition sorted {A : Type} (leb : A -> A -> bool) (l : list A) : list A :=
  fold_right (insert_sorted leb) [] l.

Definition year_options (df : DataFrame) : list Z :=
  sorted (fun a b => b <=? a) (unique Z.eqb (map Year df)).

Definition platform_options (df : DataFrame) : list string :=
  sorted String.leb (unique String.eqb (map Platform df)).

(** The session as the next run finds it after a press on "All"
    ([status = true]) or on "None" ([status = false]). *)
Definition press (df : DataFrame) (status : bool) (ui : Controls) : Controls :=
  {| sales_target := sales_target ui;
     year_filter := year_filter ui;
     month_flags := update_months (all_months df) status (month_flags ui);
     platform_filter := platform_filter ui |}.

(** A first run: nothing in the session, the two multiselects at their
    defaults. *)
Definition first_run (df : DataFrame) (target : Q) : Controls :=
  {| sales_target := target;
     year_filter := unique Z.eqb (map Year df);
     month_flags := fun _ => None;
     platform_filter := unique String.eqb (map Platform df) |}.

(** ** Gauge, summary and progress bar *)

(** The built-in [min] of two arguments: the first one unless the second is
    strictly smaller. *)
Definition min (a b : Q) : Q := if Qgt_bool a b then b else a.

Definition bar_color (ratio : Q) : string :=
  if Qle_bool 1 ratio then "#32CD32"%string else "#F4A460"%string.

(** Upper end of the gauge axis. *)
Definition axis_range_max (target sales : Q) : Q := (max target sales * (11 # 10))%Q.

(** The argument of [st.progress]. *)
Definition progress_value (ratio : Q) : Q := min ratio 1%Q.

(** ** The script as a whole *)

(** [st.progress] takes a fraction between 0 and 1 and raises on any other
    number.  An undefined ratio would have raised at its division already. *)
Definition st_progress (value : option Q) : result unit :=
  match value with
  | Some v =>
      if Qle_bool 0 v && Qle_bool v 1 then Ok tt else Raise StreamlitAPIException
  | None => Raise ZeroDivisionError
  end.

(** A failed load is caught: [st.error] followed by [st.stop] ends the run
    with the message on the page and nothing else.  An exception raised
    further down is not caught: the run ends there, with the gauge and the
    summary drawn and nothing below them.  Otherwise the whole page is
    drawn. *)
Inductive Outcome : Type :=
  | Stopped (shown : Exception)
  | Interrupted (raised : Exception)
  | Rendered (page : Dashboard).

Definition app (path : Source) (ui : Controls) : Outcome :=
  match load_data path with
  | Raise e => Stopped e
  | Ok df =>
      let page := render df ui in
      match st_progress (option_map progress_value (dash_progress_ratio page)) with
      | Raise e => Interrupted e
      | Ok _ => Rendered page
      end
  end.

(** ** Brands by platform *)

(** Order on the two-column key [Brand, Platform]. *)
Definition brand_platform_compare (a b : string * string) : comparison :=
  match String.compare (fst a) (fst b) with
  | Eq => String.compare (snd a) (snd b)
  | c => c
  end.

Definition brand_platform_key (r : Row) : string * string := (Brand r, Platform r).

Definition brand_plat_filtered (view : DataFrame) : list ((string * string) * Q) :=
  map (fun g => (fst g, sum (map Sales_Amount (snd g))))
      (groupby brand_platform_compare brand_platform_key
         (boolean_index view (isin String.eqb (map Brand view) (top_5 view)))).

(** The groups behind the bars. *)
Definition brand_plat_groups (view : DataFrame) : list ((string * string) * DataFrame) :=
  groupby brand_platform_compare brand_platform_key
    (boolean_index view (isin String.eqb (map Brand view) (top_5 view))).

(** The rows behind the bars of one brand, bar after bar. *)
Definition rows_of_bars (view : DataFrame) (b : string) : DataFrame :=
  List.concat (map snd (filter (fun g => String.eqb (fst (fst g)) b)
                          (brand_plat_groups view))).

(** ** Binary64 sums *)

(** The binary64 number of a cell: its numerator and denominator as
    binary64 numbers (exact below 2^53), divided with one rounding. *)
Fixpoint binary64_of_positive (p : positive) : PrimFloat.float :=
  match p with
  | xH => PrimFloat.one
  | xO p' => PrimFloat.mul PrimFloat.two (binary64_of_positive p')
  | xI p' =>
      PrimFloat.add (PrimFloat.mul PrimFloat.two (binary64_of_positive p'))
                    PrimFloat.one
  end.

Definition binary64_of_Z (z : Z) : PrimFloat.float :=
  match z with
  | Z0 => PrimFloat.zero
  | Zpos p => binary64_of_positive p
  | Zneg p => PrimFloat.opp (binary64_of_positive p)
  end.

Definition binary64 (q : Q) : PrimFloat.float :=
  PrimFloat.div (binary64_of_Z (Qnum q)) (binary64_of_positive (Qden q)).

(** [Series.sum] on a binary64 column: the cells are added one after the
    other, every addition rounded.  (This is the order of the additions for
    a column of fewer than eight cells; a longer column is added in blocks,
    which rounds at other places.) *)
Definition sum64 (col : list PrimFloat.float) : PrimFloat.float :=
  fold_left PrimFloat.add col PrimFloat.zero.

(** The sum of one group in [groupby(...).sum()], which carries a
    compensation term from one addition to the next. *)
Definition kahan_step (acc : PrimFloat.float * PrimFloat.float)
    (v : PrimFloat.float) : PrimFloat.float * PrimFloat.float :=
  let y := PrimFloat.sub v (snd acc) in
  let t := PrimFloat.add (fst acc) y in
  let c := PrimFloat.sub (PrimFloat.sub t (fst acc)) y in
  (t, if PrimFloat.is_nan c then PrimFloat.zero else c).

Definition group_sum64 (col : list PrimFloat.float) : PrimFloat.float :=
  fst (fold_left kahan_step col (PrimFloat.zero, PrimFloat.zero)).

Definition Sales_Amount64 (r : Row) : PrimFloat.float := binary64 (Sales_Amount r).

Definition current_sales64 (view : DataFrame) : PrimFloat.float :=
  sum64 (map Sales_Amount64 view).

(** The [Sales Amount] column of [monthly_perf] and of [brand_sales], in
    binary64. *)
Definition monthly_sales64 (view : DataFrame) : list PrimFloat.float :=
  map snd
    (sort_values (fun e => fst (fst e))
       (map (fun g => (fst g, group_sum64 (map Sales_Amount64 (snd g))))
            (groupby month_key_compare month_key view))).

Definition brand_sales64 (view : DataFrame) : list PrimFloat.float :=
  map (fun g => group_sum64 (map Sales_Amount64 (snd g)))
      (groupby String.compare Brand view).

(** Three sales of 0.1, 0.2 and 2.2: January and February and January
    again, the first and the last of one brand. *)
Definition rounding_lines : list RawRow :=
  [ mkRawRow (ts 2023 Jan) (ts 2023 Jan) "Amazon" "Nike" "Shipped" 1 (1 # 10) 0;
    mkRawRow (ts 2023 Feb) (ts 2023 Feb) "Amazon" "Adidas" "Shipped" 1 (2 # 10) 0;
    mkRawRow (ts 2023 Jan) (ts 2023 Jan) "Amazon" "Nike" "Shipped" 1 (22 # 10) 0
  ]%string%Q.

Definition rounding_view : DataFrame := map derive rounding_lines.

(** The sum of a column of exact values, as the properties speak of it. *)
Definition exact_sum (col : list Q) : Q := fold_right Qplus 0%Q col.

(** A data set without a January row: the February line of the example. *)
Definition february_df : DataFrame := skipn 1 (firstn 2 example_df).

(** A data set whose only line is a refund. *)
Definition refund_source : Source :=
  Workbook required_columns
    [ mkRawRow (ts 2023 Jan) (ts 2023 Jan) "Amazon" "Nike" "Returned" 1 (- (50)) 0
    ]%string%Q.

(** * Properties *)

(** ** The filter *)

Create HintDb rows.
#[local] Hint Constructors Subseq : rows.

Lemma existsb_Zeqb (x : Z) (l : list Z) :
  existsb (Z.eqb x) l = true <-> In x l.
Proof.
  rewrite existsb_exists. split.
  - intros [y [Hy Heq]]. apply Z.eqb_eq in Heq. now subst.
  - intros H. exists x. split; [assumption | apply Z.eqb_refl].
Qed.

Lemma existsb_String_eqb (x : string) (l : list string) :
  existsb (String.eqb x) l = true <-> In x l.
Proof.
  rewrite existsb_exists. split.
  - intros [y [Hy Heq]]. apply String.eqb_eq in Heq. now subst.
  - intros H. exists x. split; [assumption | apply String.eqb_refl].
Qed.

Lemma keep_selected years months platforms r :
  keep years months platforms r = true <-> selected years months platforms r.
Proof.
  unfold keep, selected.
  rewrite !andb_true_iff, existsb_Zeqb, !existsb_String_eqb. tauto.
Qed.

Lemma isin_map {A B : Type} (eqb : B -> B -> bool) (f : A -> B)
    (df : list A) (values : list B) :
  isin eqb (map f df) values = map (fun r => existsb (eqb (f r)) values) df.
Proof. unfold isin. now rewrite map_map. Qed.

Lemma mask_and_map {A : Type} (f g : A -> bool) (df : list A) :
  mask_and (map f df) (map g df) = map (fun r => f r && g r) df.
Proof.
  unfold mask_and. induction df as [| r df IH]; simpl; [reflexivity |].
  now rewrite IH.
Qed.

Lemma boolean_index_map {A : Type} (f : A -> bool) (df : list A) :
  boolean_index df (map f df) = filter f df.
Proof.
  induction df as [| r df IH]; simpl; [reflexivity |].
  rewrite IH. reflexivity.
Qed.

(** Indexing by the three-way mask is a row-wise filter. *)
Lemma filtered_df_filter df years months platforms :
  filtered_df df years months platforms = filter (keep years months platforms) df.
Proof.
  unfold filtered_df. rewrite !isin_map, !mask_and_map.
  apply boolean_index_map.
Qed.

Lemma Subseq_filter {A : Type} (f : A -> bool) (l : list A) :
  Subseq (filter f l) l.
Proof.
  induction l as [| x l IH]; simpl; [| destruct (f x)]; auto with rows.
Qed.

Lemma Subseq_into_filter {A : Type} (f : A -> bool) (w l : list A) :
  Subseq w l -> Forall (fun x => f x = true) w -> Subseq w (filter f l).
Proof.
  induction 1 as [| x w l _ IH | x w l _ IH]; intros Hw; simpl.
  - constructor.
  - inversion Hw as [| ? ? Hx Hrest]; subst. rewrite Hx. auto with rows.
  - destruct (f x); auto with rows.
Qed.

Lemma filter_fixpoint {A : Type} (f : A -> bool) (l : list A) :
  Forall (fun x => f x = true) l -> filter f l = l.
Proof.
  induction 1 as [| x l Hx _ IH]; simpl; [reflexivity |].
  now rewrite Hx, IH.
Qed.

Lemma filter_all_true {A : Type} (f : A -> bool) (l : list A) :
  Forall (fun x => f x = true) (filter f l).
Proof.
  apply Forall_forall. intros x Hx. now apply filter_In in Hx.
Qed.

(** C1.  The filter keeps a row exactly when its year, its month name and
    its platform are all three among the selected values, and keeps the rows
    in the order of the data set: the view is a subsequence of the data set
    made of selected rows only, every row of the data set that is selected is
    in it, and any subsequence of the data set made of selected rows only is
    a subsequence of the view. *)
Theorem filtered_df_conjunction_in_order :
  forall (df : DataFrame) (years : list Z) (months platforms : list string),
    let view := filtered_df df years months platforms in
    Subseq view df
    /\ (forall r, In r view <-> In r df /\ selected years months platforms r)
    /\ (forall w, Subseq w df -> Forall (selected years months platforms) w ->
                  Subseq w view).
Proof.
  intros df years months platforms view. subst view.
  rewrite filtered_df_filter. split; [| split].
  - apply Subseq_filter.
  - intros r. rewrite filter_In, keep_selected. reflexivity.
  - intros w Hsub Hsel. apply Subseq_into_filter; [assumption |].
    eapply Forall_impl; [| exact Hsel].
    intros r Hr. now apply keep_selected.
Qed.

(** C2.  With no year selected, or no month, or no platform, the view has
    no row; the filter is a total function, so nothing is raised. *)
Theorem filtered_df_empty_selection :
  forall (df : DataFrame) (years : list Z) (months platforms : list string),
    years = [] \/ months = [] \/ platforms = [] ->
    filtered_df df years months platforms = [].
Proof.
  intros df years months platforms Hempty.
  rewrite filtered_df_filter.
  induction df as [| r df IH]; simpl; [reflexivity |].
  replace (keep years months platforms r) with false; [exact IH |].
  unfold keep. destruct Hempty as [-> | [-> | ->]]; simpl.
  - reflexivity.
  - now rewrite andb_false_r.
  - now rewrite andb_false_r.
Qed.

(** C7.  Filtering the view again with the same selection changes nothing. *)
Theorem filtered_df_idempotent :
  forall (df : DataFrame) (years : list Z) (months platforms : list string),
    filtered_df (filtered_df df years months platforms) years months platforms
    = filtered_df df years months platforms.
Proof.
  intros df years months platforms.
  rewrite (filtered_df_filter (filtered_df _ _ _ _)).
  rewrite filtered_df_filter.
  apply filter_fixpoint, filter_all_true.
Qed.

(** ** Scalar figures *)

Lemma Qgt_bool_true (a b : Q) : Qgt_bool a b = true <-> (b < a)%Q.
Proof.
  unfold Qgt_bool. rewrite negb_true_iff. split.
  - intros H. apply Qnot_le_lt. intros Hle.
    apply Qle_bool_iff in Hle. congruence.
  - intros H. destruct (Qle_bool a b) eqn:E; [| reflexivity].
    apply Qle_bool_iff in E. exfalso. exact (Qlt_not_le _ _ H E).
Qed.

Lemma Qgt_bool_false (a b : Q) : Qgt_bool a b = false <-> (a <= b)%Q.
Proof.
  unfold Qgt_bool. rewrite negb_false_iff. apply Qle_bool_iff.
Qed.

Lemma div_defined (a b : Q) : ~ (b == 0)%Q -> div a b = Some (a / b)%Q.
Proof.
  intros Hb. unfold div. destruct (Qeq_bool b 0) eqn:E; [| reflexivity].
  apply Qeq_bool_iff in E. contradiction.
Qed.

Lemma max_Qmax (a b : Q) : (max a b == Qmax a b)%Q.
Proof.
  unfold max. destruct (Qgt_bool b a) eqn:E.
  - apply Qgt_bool_true in E. symmetry. apply Q.max_r. now apply Qlt_le_weak.
  - apply Qgt_bool_false in E. symmetry. now apply Q.max_l.
Qed.

(** C3.  The margin is profit / sales * 100 when the sales are positive and
    0 when they are zero; the progress ratio is sales / target when the
    target is positive and 0 otherwise.  Neither is ever undefined: no
    division by zero is reached. *)
Theorem margin_and_progress_ratio_guarded :
  forall (view : DataFrame) (target : Q),
    let sales := current_sales view in
    let profit := total_profit view in
    ((0 < sales)%Q -> margin profit sales = Some (profit / sales * 100)%Q)
    /\ ((sales == 0)%Q -> margin profit sales = Some 0%Q)
    /\ ((0 < target)%Q -> progress_ratio sales target = Some (sales / target)%Q)
    /\ ((target <= 0)%Q -> progress_ratio sales target = Some 0%Q)
    /\ margin profit sales <> None
    /\ progress_ratio sales target <> None.
Proof.
  intros view target sales profit.
  generalize sales profit. clear. intros sales profit.
  assert (Hm_pos : (0 < sales)%Q ->
                   margin profit sales = Some (profit / sales * 100)%Q).
  { intros H. unfold margin.
    rewrite (proj2 (Qgt_bool_true sales 0) H), div_defined; [reflexivity |].
    intros E. rewrite E in H. exact (Qlt_irrefl _ H). }
  assert (Hm_zero : (sales <= 0)%Q -> margin profit sales = Some 0%Q).
  { intros H. unfold margin. now rewrite (proj2 (Qgt_bool_false sales 0) H). }
  assert (Hp_pos : (0 < target)%Q ->
                   progress_ratio sales target = Some (sales / target)%Q).
  { intros H. unfold progress_ratio.
    rewrite (proj2 (Qgt_bool_true target 0) H). apply div_defined.
    intros E. rewrite E in H. exact (Qlt_irrefl _ H). }
  assert (Hp_zero : (target <= 0)%Q -> progress_ratio sales target = Some 0%Q).
  { intros H. unfold progress_ratio. now rewrite (proj2 (Qgt_bool_false target 0) H). }
  repeat split; try assumption.
  - intros H. apply Hm_zero. rewrite H. apply Qle_refl.
  - destruct (Qlt_le_dec 0 sales) as [H | H];
      [rewrite (Hm_pos H) | rewrite (Hm_zero H)]; discriminate.
  - destruct (Qlt_le_dec 0 target) as [H | H];
      [rewrite (Hp_pos H) | rewrite (Hp_zero H)]; discriminate.
Qed.

Lemma goal_note_cases (target sales : Q) :
  ((sales < target)%Q /\ goal_note target sales = Gap (target - sales)%Q)
  \/ ((target <= sales)%Q /\ goal_note target sales = Surplus (sales - target)%Q).
Proof.
  unfold goal_note, rem_to_goal, max.
  destruct (Qgt_bool 0 (target - sales)) eqn:Eneg.
  - right. apply Qgt_bool_true in Eneg. split.
    + apply Qlt_le_weak. apply (Qplus_lt_l _ _ (- sales)).
      now rewrite Qplus_opp_r.
    + reflexivity.
  - apply Qgt_bool_false in Eneg.
    destruct (Qgt_bool (target - sales) 0) eqn:Epos.
    + left. apply Qgt_bool_true in Epos. split; [| reflexivity].
      apply (Qplus_lt_l _ _ (- sales)). now rewrite Qplus_opp_r.
    + right. apply Qgt_bool_false in Epos. split; [| reflexivity].
      apply (Qplus_le_l _ _ (- sales)). now rewrite Qplus_opp_r.
Qed.

(** C4.  The gap is max(target - sales, 0) and the surplus is
    max(sales - target, 0); one of the two is positive and the other zero,
    unless the sales equal the target, which is exactly when both are zero. *)
Theorem gap_and_surplus :
  forall (view : DataFrame) (target : Q),
    let sales := current_sales view in
    let gap := gap_shown (goal_note target sales) in
    let surplus := surplus_shown (goal_note target sales) in
    (rem_to_goal target sales == Qmax (target - sales) 0)%Q
    /\ (gap == Qmax (target - sales) 0)%Q
    /\ (surplus == Qmax (sales - target) 0)%Q
    /\ (((0 < gap)%Q /\ (surplus == 0)%Q)
        \/ ((gap == 0)%Q /\ (0 < surplus)%Q)
        \/ ((gap == 0)%Q /\ (surplus == 0)%Q))
    /\ ((gap == 0)%Q /\ (surplus == 0)%Q <-> (sales == target)%Q).
Proof.
  intros view target sales gap surplus. subst gap surplus.
  generalize sales. clear. intros sales.
  split; [apply max_Qmax |].
  destruct (goal_note_cases target sales) as [[Hlt ->] | [Hle ->]]; simpl.
  - assert (Hpos : (0 < target - sales)%Q).
    { apply (Qplus_lt_l _ _ sales). ring_simplify. exact Hlt. }
    assert (Hneg : (sales - target <= 0)%Q).
    { apply (Qplus_le_l _ _ target). ring_simplify. now apply Qlt_le_weak. }
    split; [symmetry; apply Q.max_l; now apply Qlt_le_weak |].
    split; [symmetry; now apply Q.max_r |].
    split; [left; split; [exact Hpos | reflexivity] |].
    split.
    + intros [H0 _]. rewrite H0 in Hpos. now apply Qlt_irrefl in Hpos.
    + intros E. rewrite E in Hlt. now apply Qlt_irrefl in Hlt.
  - assert (Hneg : (target - sales <= 0)%Q).
    { apply (Qplus_le_l _ _ sales). ring_simplify. exact Hle. }
    assert (Hpos : (0 <= sales - target)%Q).
    { apply (Qplus_le_l _ _ target). ring_simplify. exact Hle. }
    split; [symmetry; now apply Q.max_r |].
    split; [symmetry; now apply Q.max_l |].
    split.
    + apply Qle_lt_or_eq in Hpos. destruct Hpos as [Hpos | Heq].
      * right. left. split; [reflexivity | exact Hpos].
      * right. right. split; [reflexivity | now symmetry].
    + split.
      * intros [_ H0]. apply (Qplus_inj_r _ _ (- target)).
        rewrite Qplus_opp_r. exact H0.
      * intros E. split; [reflexivity |]. rewrite E. ring.
Qed.

(** ** The full selection *)

Lemma covers_In {A : Type} (eqb : A -> A -> bool) (values col : list A) (x : A) :
  (forall a b, eqb a b = true -> a = b) ->
  covers eqb values col = true -> In x col -> In x values.
Proof.
  intros Heqb Hcov Hx. unfold covers in Hcov.
  rewrite forallb_forall in Hcov. specialize (Hcov x Hx).
  apply existsb_exists in Hcov. destruct Hcov as [y [Hy Hxy]].
  apply Heqb in Hxy. now subst.
Qed.

Lemma full_selection_keeps_all df years months platforms :
  full_selection df years months platforms = true ->
  filtered_df df years months platforms = df.
Proof.
  intros Hfull. unfold full_selection, same_values in Hfull.
  rewrite !andb_true_iff in Hfull.
  destruct Hfull as [[[Hy _] [Hm _]] [Hp _]].
  rewrite filtered_df_filter. apply filter_fixpoint, Forall_forall.
  intros r Hr. apply keep_selected. repeat split.
  - apply (covers_In Z.eqb years (map Year df)).
    + intros a b. apply Z.eqb_eq.
    + exact Hy.
    + now apply in_map.
  - apply (covers_In String.eqb months (map MonthName df)).
    + intros a b. apply String.eqb_eq.
    + exact Hm.
    + now apply in_map.
  - apply (covers_In String.eqb platforms (map Platform df)).
    + intros a b. apply String.eqb_eq.
    + exact Hp.
    + now apply in_map.
Qed.

(** C8.  Under the full selection the sales of the view add up to the sales
    of the whole data set. *)
Theorem full_selection_preserves_sales :
  forall (df : DataFrame) (years : list Z) (months platforms : list string),
    full_selection df years months platforms = true ->
    current_sales (filtered_df df years months platforms) = current_sales df.
Proof.
  intros df years months platforms Hfull.
  now rewrite full_selection_keeps_all.
Qed.

(** ** Loading *)

Lemma has_column_In (cols : list string) (c : string) :
  has_column cols c = true <-> In c cols.
Proof. apply existsb_String_eqb. Qed.

Lemma select_columns_missing (want : list string) (s : Sheet) (c : string) :
  In c want -> ~ In c (sheet_columns s) ->
  exists missing, In c missing /\ select_columns want s = Raise (KeyError missing).
Proof.
  intros Hwant Habsent. unfold select_columns.
  assert (Hin : In c (filter (fun c => negb (has_column (sheet_columns s) c)) want)).
  { apply filter_In. split; [assumption |].
    apply negb_true_iff. destruct (has_column (sheet_columns s) c) eqn:E.
    - apply has_column_In in E. contradiction.
    - reflexivity. }
  destruct (filter _ want) as [| c0 cs]; [contradiction |].
  exists (c0 :: cs). split; [assumption | reflexivity].
Qed.

(** C9.  A missing file, an unreadable file and a sheet without one of the
    required columns all make the load raise; the run then stops on the
    error, with no data set and no page.  A sheet without the Brand column
    is such a case: the error is the [KeyError] that names Brand. *)
Theorem load_failure_stops_the_run :
  forall (path : Source) (ui : Controls),
    load_fails path ->
    (exists e,
        load_data path = Raise e
        /\ app path ui = Stopped e
        /\ (forall df, load_data path <> Ok df)
        /\ (forall page, app path ui <> Rendered page))
    /\ (forall cols lines,
          path = Workbook cols lines -> ~ In "Brand"%string cols ->
          exists missing,
            In "Brand"%string missing
            /\ load_data path = Raise (KeyError missing)
            /\ app path ui = Stopped (KeyError missing)).
Proof.
  intros path ui Hfail.
  assert (Hkey : forall cols lines c,
             path = Workbook cols lines -> In c required_columns -> ~ In c cols ->
             exists missing,
               In c missing
               /\ load_data path = Raise (KeyError missing)
               /\ app path ui = Stopped (KeyError missing)).
  { intros cols lines c -> Hreq Habsent.
    destruct (select_columns_missing required_columns (mkSheet cols lines) c Hreq Habsent)
      as [missing [Hin Hsel]].
    exists missing. unfold app, load_data. cbn [read_excel bind].
    rewrite Hsel. cbn [bind]. split; [assumption | split; reflexivity]. }
  split.
  - assert (Hraise : exists e, load_data path = Raise e /\ app path ui = Stopped e).
    { destruct Hfail as [-> | [-> | [cols [lines [c [Hpath [Hreq Habsent]]]]]]].
      - exists FileNotFoundError. split; reflexivity.
      - exists ValueError. split; reflexivity.
      - destruct (Hkey cols lines c Hpath Hreq Habsent) as [missing [_ [Hl Ha]]].
        exists (KeyError missing). split; assumption. }
    destruct Hraise as [e [Hl Ha]]. exists e.
    split; [exact Hl |]. split; [exact Ha |]. split.
    + intros df. rewrite Hl. discriminate.
    + intros page. rewrite Ha. discriminate.
  - intros cols lines Hpath Habsent.
    apply (Hkey cols lines "Brand"%string Hpath); [| assumption].
    unfold required_columns. simpl. tauto.
Qed.

(** ** Sums *)

Lemma sum_nil : sum [] = 0%Q.
Proof. reflexivity. Qed.

(** ** Grouping *)

Section GroupByFacts.
Context {K : Type} (cmp : K -> K -> comparison) `{KeyOrder K cmp}.

Lemma cmp_refl (a : K) : cmp a a = Eq.
Proof. now apply cmp_eq. Qed.

Lemma cmp_Gt_flip (a b : K) : cmp a b = Gt -> cmp b a = Lt.
Proof. intros Hab. rewrite (cmp_antisym a b), Hab. reflexivity. Qed.

Lemma key_eqb_true (a b : K) : key_eqb cmp a b = true <-> a = b.
Proof.
  unfold key_eqb. rewrite <- cmp_eq.
  destruct (cmp a b); split; congruence.
Qed.

Lemma klt_irrefl (a : K) : ~ klt cmp a a.
Proof. unfold klt. rewrite cmp_refl. discriminate. Qed.

Lemma insert_key_In (k x : K) (keys : list K) :
  In x (insert_key cmp k keys) <-> x = k \/ In x keys.
Proof.
  induction keys as [| k' keys IH]; simpl.
  - intuition.
  - destruct (cmp k k') eqn:E; simpl.
    + apply cmp_eq in E. subst k'. intuition.
    + intuition.
    + rewrite IH. intuition.
Qed.

Lemma insert_key_sorted (k : K) (keys : list K) :
  StronglySorted (klt cmp) keys -> StronglySorted (klt cmp) (insert_key cmp k keys).
Proof.
  induction 1 as [| k' keys Hsorted IH Hall]; simpl.
  - repeat constructor.
  - destruct (cmp k k') eqn:E.
    + now constructor.
    + constructor; [now constructor |].
      constructor; [exact E |].
      eapply Forall_impl; [| exact Hall].
      intros z Hz. exact (cmp_trans _ _ _ E Hz).
    + constructor; [exact IH |].
      apply Forall_forall. intros z Hz.
      apply insert_key_In in Hz. destruct Hz as [-> | Hz].
      * now apply cmp_Gt_flip.
      * rewrite Forall_forall in Hall. now apply Hall.
Qed.

Lemma group_keys_sorted (col : list K) :
  StronglySorted (klt cmp) (group_keys cmp col).
Proof.
  induction col as [| k col IH]; simpl.
  - constructor.
  - now apply insert_key_sorted.
Qed.

Lemma group_keys_In (col : list K) (k : K) :
  In k (group_keys cmp col) <-> In k col.
Proof.
  induction col as [| k' col IH]; simpl.
  - reflexivity.
  - rewrite insert_key_In, IH. intuition.
Qed.

Lemma klt_sorted_NoDup (keys : list K) :
  StronglySorted (klt cmp) keys -> NoDup keys.
Proof.
  induction 1 as [| k keys _ IH Hall]; constructor; [| exact IH].
  intros Hin. rewrite Forall_forall in Hall.
  exact (klt_irrefl k (Hall k Hin)).
Qed.

Lemma group_keys_NoDup (col : list K) : NoDup (group_keys cmp col).
Proof. apply klt_sorted_NoDup, group_keys_sorted. Qed.

End GroupByFacts.

(** ** The two key orders of the script *)

Lemma String_compare_refl (s : string) : String.compare s s = Eq.
Proof.
  assert (Hanti := String.compare_antisym s s).
  destruct (String.compare s s); simpl in Hanti; congruence.
Qed.

#[export] Instance String_compare_KeyOrder : KeyOrder String.compare.
Proof.
  split.
  - intros a b. split.
    + apply String.compare_eq_iff.
    + intros ->. apply String_compare_refl.
  - intros a b. apply String.compare_antisym.
  - intros a b c Hab Hbc.
    apply String_as_OT.cmp_lt in Hab. apply String_as_OT.cmp_lt in Hbc.
    apply String_as_OT.cmp_lt. exact (String_as_OT.lt_trans _ _ _ Hab Hbc).
Qed.

Lemma month_key_compare_Lt (a b : Z * string) :
  month_key_compare a b = Lt <->
  fst a < fst b \/ (fst a = fst b /\ String.compare (snd a) (snd b) = Lt).
Proof.
  unfold month_key_compare.
  destruct (fst a ?= fst b) eqn:E.
  - apply Z.compare_eq_iff in E. intuition lia.
  - apply Z.compare_lt_iff in E. intuition.
  - apply Z.compare_gt_iff in E. split; [discriminate | intuition lia].
Qed.

#[export] Instance month_key_compare_KeyOrder : KeyOrder month_key_compare.
Proof.
  split.
  - intros [n1 s1] [n2 s2]. unfold month_key_compare. simpl. split.
    + destruct (n1 ?= n2) eqn:E; try discriminate.
      apply Z.compare_eq_iff in E. intros Hs.
      apply String.compare_eq_iff in Hs. congruence.
    + intros Heq. inversion Heq; subst.
      rewrite Z.compare_refl. apply String_compare_refl.
  - intros [n1 s1] [n2 s2]. unfold month_key_compare. simpl.
    rewrite (Z.compare_antisym n1 n2).
    destruct (n1 ?= n2); simpl; try reflexivity.
    apply String.compare_antisym.
  - intros a b c Hab Hbc.
    apply month_key_compare_Lt in Hab. apply month_key_compare_Lt in Hbc.
    apply month_key_compare_Lt.
    destruct Hab as [Hab | [Hab Hab']], Hbc as [Hbc | [Hbc Hbc']];
      try (left; lia).
    right. split; [lia |].
    exact (cmp_trans _ _ _ Hab' Hbc').
Qed.

(** ** Sorting *)

Lemma sort_values_sorted_id {A : Type} (key : A -> Z) (l : list A) :
  StronglySorted (fun a b => key a <= key b) l -> sort_values key l = l.
Proof.
  unfold sort_values.
  induction 1 as [| x l _ IH Hall]; simpl; [reflexivity |].
  rewrite IH.
  destruct l as [| y l]; simpl; [reflexivity |].
  inversion Hall as [| ? ? Hxy _]; subst.
  apply Z.leb_le in Hxy. now rewrite Hxy.
Qed.

Lemma StronglySorted_map_In {A B : Type} (R : A -> A -> Prop)
    (R' : B -> B -> Prop) (f : A -> B) (l : list A) :
  (forall a b, In a l -> In b l -> R a b -> R' (f a) (f b)) ->
  StronglySorted R l -> StronglySorted R' (map f l).
Proof.
  intros Hmono Hsorted. induction Hsorted as [| x l _ IH Hall]; simpl.
  - constructor.
  - constructor.
    + apply IH. intros a b Ha Hb. apply Hmono; now right.
    + apply Forall_forall. intros y Hy.
      apply in_map_iff in Hy. destruct Hy as [z [<- Hz]].
      rewrite Forall_forall in Hall.
      apply Hmono; [now left | now right | now apply Hall].
Qed.

(** The groups come out with their month numbers in ascending order, so the
    sort that follows the grouping leaves them where they are. *)
Lemma monthly_perf_groupby (view : DataFrame) :
  monthly_perf view
  = map monthly_total (groupby month_key_compare month_key view).
Proof.
  unfold monthly_perf. apply sort_values_sorted_id.
  unfold groupby. rewrite map_map.
  apply (StronglySorted_map_In (klt month_key_compare)
           (fun a b => mp_MonthNum a <= mp_MonthNum b)).
  - intros a b _ _ Hab. simpl.
    apply month_key_compare_Lt in Hab. lia.
  - apply group_keys_sorted. exact month_key_compare_KeyOrder.
Qed.

(** ** Monthly totals *)

Lemma month_num_inj (m1 m2 : Month) : month_num m1 = month_num m2 -> m1 = m2.
Proof. destruct m1, m2; simpl; intros E; (reflexivity || discriminate E). Qed.

Lemma derive_calendar_row (r : RawRow) : calendar_row (derive r).
Proof. exists (ts_month (raw_Sales_Order_Date r)). split; reflexivity. Qed.

(** What a successful load returns: the derived rows of a sheet that has
    the eight labels and at least one line. *)
Lemma load_data_Ok_inv (path : Source) (df : DataFrame) :
  load_data path = Ok df ->
  exists cols lines,
    path = Workbook cols lines
    /\ select_columns required_columns (mkSheet cols lines) = Ok lines
    /\ lines <> []
    /\ df = map derive lines.
Proof.
  unfold load_data. destruct path as [| | cols lines]; simpl; try discriminate.
  destruct (select_columns required_columns (mkSheet cols lines))
    as [kept | e] eqn:Hsel; simpl; [| discriminate].
  assert (Hkept : kept = lines).
  { unfold select_columns in Hsel. cbn [sheet_columns sheet_lines] in Hsel.
    destruct (filter _ required_columns); [| discriminate Hsel].
    now injection Hsel. }
  subst kept. destruct lines as [| l lines]; simpl; [discriminate |].
  intros E. injection E as <-.
  exists cols, (l :: lines).
  split; [reflexivity |]. split; [exact Hsel |]. split; [discriminate | reflexivity].
Qed.

Lemma load_data_rows (path : Source) (df : DataFrame) :
  load_data path = Ok df -> exists lines, df = map derive lines.
Proof.
  intros Hload. destruct (load_data_Ok_inv path df Hload)
    as [cols [lines [_ [_ [_ ->]]]]].
  now exists lines.
Qed.

Lemma load_data_calendar (path : Source) (df : DataFrame) :
  load_data path = Ok df -> Forall calendar_row df.
Proof.
  intros Hload. destruct (load_data_rows path df Hload) as [lines ->].
  apply Forall_forall. intros r Hr.
  apply in_map_iff in Hr. destruct Hr as [raw [<- _]].
  apply derive_calendar_row.
Qed.

Lemma filtered_df_calendar df years months platforms :
  Forall calendar_row df ->
  Forall calendar_row (filtered_df df years months platforms).
Proof.
  intros Hdf. rewrite filtered_df_filter.
  rewrite Forall_forall in *. intros r Hr.
  apply filter_In in Hr. now apply Hdf.
Qed.

Lemma pair_eqb_true (a b : Z * string) : pair_eqb a b = true <-> a = b.
Proof.
  destruct a as [n1 s1], b as [n2 s2]. unfold pair_eqb. simpl.
  rewrite andb_true_iff, Z.eqb_eq, String.eqb_eq.
  split; [intros [-> ->]; reflexivity | intros E; inversion E; auto].
Qed.

Lemma month_key_eqb_pair_eqb (a b : Z * string) :
  key_eqb month_key_compare a b = pair_eqb a b.
Proof.
  apply eq_true_iff_eq.
  rewrite (key_eqb_true month_key_compare), pair_eqb_true. reflexivity.
Qed.

Lemma Zlt_sorted_NoDup (l : list Z) : StronglySorted Z.lt l -> NoDup l.
Proof.
  induction 1 as [| x l _ IH Hall]; constructor; [| exact IH].
  intros Hin. rewrite Forall_forall in Hall.
  specialize (Hall x Hin). lia.
Qed.

Lemma monthly_perf_keys (view : DataFrame) :
  map mp_key (monthly_perf view) = group_keys month_key_compare (map month_key view).
Proof.
  rewrite monthly_perf_groupby. unfold groupby. rewrite !map_map.
  unfold mp_key. simpl.
  rewrite <- (map_id (group_keys _ _)) at 2.
  apply map_ext. now intros [n name].
Qed.

(** Between two calendar keys the order of the keys is the order of the
    month numbers. *)
Lemma calendar_keys_by_number (view : DataFrame) :
  Forall calendar_row view ->
  StronglySorted Z.lt (map fst (group_keys month_key_compare (map month_key view))).
Proof.
  intros Hcal.
  apply (StronglySorted_map_In (klt month_key_compare) Z.lt fst).
  - assert (Hkey : forall k,
               In k (group_keys month_key_compare (map month_key view)) ->
               exists m, k = (month_num m, month_abbr m)).
    { intros k Hk. rewrite (group_keys_In month_key_compare) in Hk.
      apply in_map_iff in Hk. destruct Hk as [r [<- Hr]].
      rewrite Forall_forall in Hcal. destruct (Hcal r Hr) as [m [Hn Hs]].
      exists m. unfold month_key. now rewrite Hn, Hs. }
    intros a b Ha Hb Hab.
    destruct (Hkey a Ha) as [ma ->], (Hkey b Hb) as [mb ->].
    apply month_key_compare_Lt in Hab. simpl in Hab.
    destruct Hab as [Hlt | [Heq Hname]]; [exact Hlt |].
    apply month_num_inj in Heq. subst mb.
    rewrite String_compare_refl in Hname. discriminate.
  - apply group_keys_sorted. exact month_key_compare_KeyOrder.
Qed.

(** C5.  On a view of a loaded data set the monthly totals have one entry
    for each (month number, month name) pair that occurs in the view and no
    other entry, each entry carries the sum of the sales and the sum of the
    profit of the rows of its pair, the month numbers go strictly up along
    the output, and so no month number occurs twice. *)
Theorem monthly_perf_one_entry_per_month_ascending :
  forall (path : Source) (df : DataFrame) (years : list Z)
         (months platforms : list string),
    load_data path = Ok df ->
    let view := filtered_df df years months platforms in
    let out := monthly_perf view in
    (forall n name, In (n, name) (map mp_key out) <-> In (n, name) (map month_key view))
    /\ NoDup (map mp_key out)
    /\ (forall e, In e out ->
          mp_Sales_Amount e
          = sum (map Sales_Amount (month_group view (mp_MonthNum e) (mp_MonthName e)))
          /\ mp_Profit e
             = sum (map Profit (month_group view (mp_MonthNum e) (mp_MonthName e))))
    /\ StronglySorted Z.lt (map mp_MonthNum out)
    /\ NoDup (map mp_MonthNum out).
Proof.
  intros path df years months platforms Hload view out.
  assert (Hcal : Forall calendar_row view).
  { apply filtered_df_calendar. exact (load_data_calendar path df Hload). }
  assert (Hnum : map mp_MonthNum out
                 = map fst (group_keys month_key_compare (map month_key view))).
  { subst out. rewrite <- monthly_perf_keys, map_map. reflexivity. }
  assert (Hup : StronglySorted Z.lt (map mp_MonthNum out)).
  { rewrite Hnum. now apply calendar_keys_by_number. }
  subst out. rewrite monthly_perf_keys.
  split; [| split; [| split; [| split]]].
  - intros n name. apply (group_keys_In month_key_compare).
  - apply (group_keys_NoDup month_key_compare).
  - intros e He. rewrite monthly_perf_groupby in He.
    apply in_map_iff in He. destruct He as [g [<- Hg]].
    unfold groupby in Hg. apply in_map_iff in Hg.
    destruct Hg as [[n name] [<- _]].
    unfold monthly_total, month_group. simpl.
    rewrite (filter_ext _ (fun r => pair_eqb (month_key r) (n, name)));
      [split; reflexivity |].
    intros r. apply month_key_eqb_pair_eqb.
  - exact Hup.
  - apply Zlt_sorted_NoDup. exact Hup.
Qed.

(** ** Ranking *)

Section SortDesc.
Context {A : Type} (val : A -> Q).

Lemma insert_desc_In (x y : A) (l : list A) :
  In y (insert_desc val x l) <-> y = x \/ In y l.
Proof.
  induction l as [| z l IH]; simpl.
  - intuition.
  - destruct (Qle_bool (val z) (val x)); simpl; [| rewrite IH]; intuition.
Qed.

Lemma insert_desc_length (x : A) (l : list A) :
  List.length (insert_desc val x l) = S (List.length l).
Proof.
  induction l as [| z l IH]; simpl; [reflexivity |].
  destruct (Qle_bool (val z) (val x)); simpl; [| rewrite IH]; reflexivity.
Qed.

Lemma sort_desc_In (y : A) (l : list A) : In y (sort_desc val l) <-> In y l.
Proof.
  unfold sort_desc. induction l as [| x l IH]; simpl.
  - reflexivity.
  - rewrite insert_desc_In, IH. intuition.
Qed.

Lemma sort_desc_length (l : list A) : List.length (sort_desc val l) = List.length l.
Proof.
  unfold sort_desc. induction l as [| x l IH]; simpl; [reflexivity |].
  now rewrite insert_desc_length, IH.
Qed.

End SortDesc.

Section StableRanking.
Context {A : Type} (val : A -> Q) (pos : A -> A -> Prop).

Lemma rank_intro (a b : A) : (val b <= val a)%Q -> pos a b -> rank val pos a b.
Proof.
  intros Hle Hpos. apply Qle_lt_or_eq in Hle.
  destruct Hle as [Hlt | Heq]; [now left | right].
  split; [now symmetry | exact Hpos].
Qed.

Lemma rank_le (a b : A) : rank val pos a b -> (val b <= val a)%Q.
Proof.
  intros [Hlt | [Heq _]]; [now apply Qlt_le_weak |].
  rewrite Heq. apply Qle_refl.
Qed.

(** Inserting a row that stood before all the rows already sorted keeps
    the ranking. *)
Lemma insert_desc_ranked (x : A) (l : list A) :
  StronglySorted (rank val pos) l -> Forall (pos x) l ->
  StronglySorted (rank val pos) (insert_desc val x l).
Proof.
  induction 1 as [| y l Hsorted IH Hall]; intros Hpos; simpl.
  - repeat constructor.
  - inversion Hpos as [| ? ? Hxy Hxl]; subst.
    destruct (Qle_bool (val y) (val x)) eqn:E.
    + apply Qle_bool_iff in E.
      constructor; [now constructor |].
      constructor; [now apply rank_intro |].
      rewrite Forall_forall in *. intros z Hz.
      apply rank_intro; [| now apply Hxl].
      apply Qle_trans with (val y); [| exact E].
      apply rank_le. now apply Hall.
    + assert (Hlt : (val x < val y)%Q).
      { apply Qnot_le_lt. intros Hle. apply Qle_bool_iff in Hle. congruence. }
      constructor; [now apply IH |].
      apply Forall_forall. intros z Hz.
      apply (insert_desc_In val) in Hz. destruct Hz as [-> | Hz].
      * now left.
      * rewrite Forall_forall in Hall. now apply Hall.
Qed.

(** The sort is stable: rows of equal value keep the order they had. *)
Lemma sort_desc_ranked (l : list A) :
  StronglySorted pos l -> StronglySorted (rank val pos) (sort_desc val l).
Proof.
  unfold sort_desc. induction 1 as [| x l _ IH Hall]; simpl.
  - constructor.
  - apply insert_desc_ranked; [exact IH |].
    rewrite Forall_forall in *. intros z Hz.
    apply Hall. now apply (sort_desc_In val z l).
Qed.

End StableRanking.

Lemma StronglySorted_cut {A : Type} (R : A -> A -> Prop) (l : list A) :
  StronglySorted R l ->
  forall n,
    StronglySorted R (firstn n l)
    /\ (forall a b, In a (firstn n l) -> In b (skipn n l) -> R a b).
Proof.
  induction 1 as [| x l _ IH Hall]; intros n.
  - rewrite firstn_nil. split; [constructor | intros a b []].
  - destruct n as [| n]; simpl.
    + split; [constructor | intros a b []].
    + destruct (IH n) as [Hfirst Hcross]. split.
      * constructor; [exact Hfirst |].
        rewrite Forall_forall in *. intros z Hz.
        apply Hall. rewrite <- (firstn_skipn n l).
        apply in_or_app. now left.
      * intros a b [<- | Ha] Hb.
        -- rewrite Forall_forall in Hall. apply Hall.
           rewrite <- (firstn_skipn n l). apply in_or_app. now right.
        -- now apply Hcross.
Qed.

Lemma In_firstn {A : Type} (n : nat) (l : list A) (x : A) :
  In x (firstn n l) -> In x l.
Proof.
  intros Hx. rewrite <- (firstn_skipn n l). apply in_or_app. now left.
Qed.

Lemma brand_sales_brands (view : DataFrame) :
  map fst (brand_sales view) = group_keys String.compare (map Brand view).
Proof.
  unfold brand_sales, groupby. rewrite !map_map. simpl. apply map_id.
Qed.

Lemma brand_sales_total (view : DataFrame) (e : string * Q) :
  In e (brand_sales view) -> snd e = brand_total view (fst e).
Proof.
  unfold brand_sales, groupby. rewrite map_map. simpl.
  intros He. apply in_map_iff in He. destruct He as [b [<- _]]. simpl.
  unfold brand_total. f_equal. f_equal. apply filter_ext.
  intros r. apply eq_true_iff_eq.
  rewrite (key_eqb_true String.compare), String.eqb_eq. reflexivity.
Qed.

Lemma brand_sales_sorted (view : DataFrame) :
  StronglySorted (fun a b => String.compare (fst a) (fst b) = Lt) (brand_sales view).
Proof.
  unfold brand_sales, groupby. rewrite map_map.
  apply (StronglySorted_map_In (klt String.compare)).
  - intros a b _ _ Hab. exact Hab.
  - apply group_keys_sorted. exact String_compare_KeyOrder.
Qed.

Lemma ranks_before_irrefl (view : DataFrame) (b : string) :
  ~ ranks_before view b b.
Proof.
  intros [Hlt | [_ Hcmp]].
  - exact (Qlt_irrefl _ Hlt).
  - rewrite String_compare_refl in Hcmp. discriminate.
Qed.

Lemma StronglySorted_NoDup_irrefl {A : Type} (R : A -> A -> Prop) (l : list A) :
  (forall a, ~ R a a) -> StronglySorted R l -> NoDup l.
Proof.
  intros Hirr. induction 1 as [| x l _ IH Hall]; constructor; [| exact IH].
  intros Hin. rewrite Forall_forall in Hall. exact (Hirr x (Hall x Hin)).
Qed.

(** The rows of [brand_sales], sorted for the ranking. *)
Lemma ranked_brand_sales (view : DataFrame) :
  StronglySorted
    (rank snd (fun a b => String.compare (fst a) (fst b) = Lt))
    (sort_desc snd (brand_sales view)).
Proof. apply sort_desc_ranked, brand_sales_sorted. Qed.

Lemma rank_ranks_before (view : DataFrame) (a b : string * Q) :
  In a (brand_sales view) -> In b (brand_sales view) ->
  rank snd (fun a b => String.compare (fst a) (fst b) = Lt) a b ->
  ranks_before view (fst a) (fst b).
Proof.
  intros Ha Hb. unfold rank, ranks_before.
  now rewrite (brand_sales_total view a Ha), (brand_sales_total view b Hb).
Qed.


(** ** The selection of a fresh session is the full selection *)

Lemma unique_In {A : Type} (eqb : A -> A -> bool) (col : list A) (x : A) :
  (forall a b, eqb a b = true <-> a = b) ->
  In x (unique eqb col) <-> In x col.
Proof.
  intros Heqb. induction col as [| a col IH]; simpl; [reflexivity |].
  rewrite filter_In, IH, negb_true_iff. split.
  - intros [-> | [Hx _]]; auto.
  - intros [-> | Hx]; [now left |].
    destruct (eqb a x) eqn:E.
    + left. now apply Heqb.
    + right. split; [exact Hx | reflexivity].
Qed.

Lemma insert_asc_In {A : Type} (key : A -> Z) (x y : A) (l : list A) :
  In y (insert_asc key x l) <-> y = x \/ In y l.
Proof.
  induction l as [| z l IH]; simpl.
  - intuition.
  - destruct (key x <=? key z); simpl; [| rewrite IH]; intuition.
Qed.

Lemma sort_values_In {A : Type} (key : A -> Z) (y : A) (l : list A) :
  In y (sort_values key l) <-> In y l.
Proof.
  unfold sort_values. induction l as [| x l IH]; simpl.
  - reflexivity.
  - rewrite insert_asc_In, IH. intuition.
Qed.

Lemma month_lookup_In (df : DataFrame) (p : Z * string) :
  In p (month_lookup df) <-> In p (map (fun r => (MonthNum r, MonthName r)) df).
Proof.
  unfold month_lookup. rewrite sort_values_In.
  apply unique_In, pair_eqb_true.
Qed.

Lemma all_months_In (df : DataFrame) (m : string) :
  In m (all_months df) <-> In m (map MonthName df).
Proof.
  unfold all_months. rewrite !in_map_iff. split.
  - intros [[n name] [<- Hin]].
    rewrite month_lookup_In, in_map_iff in Hin. destruct Hin as [r [E Hr]].
    exists r. inversion E. auto.
  - intros [r [<- Hr]]. exists (MonthNum r, MonthName r). split; [reflexivity |].
    rewrite month_lookup_In, in_map_iff. now exists r.
Qed.

Lemma update_months_keeps (months : list string) (status : bool)
    (st : SessionState) (m : string) :
  st m = Some status -> update_months months status st m = Some status.
Proof.
  unfold update_months. revert st.
  induction months as [| m0 months IH]; intros st Hst; simpl; [exact Hst |].
  apply IH. unfold set_flag. now destruct (String.eqb m m0).
Qed.

Lemma update_months_sets (months : list string) (status : bool)
    (st : SessionState) (m : string) :
  In m months -> update_months months status st m = Some status.
Proof.
  revert st. induction months as [| m0 months IH]; intros st Hin.
  - destruct Hin.
  - destruct Hin as [-> | Hin].
    + apply (update_months_keeps months status (set_flag st m status)).
      unfold set_flag. now rewrite String.eqb_refl.
    + apply (IH (set_flag st m0 status) Hin).
Qed.

Lemma default_months_all (df : DataFrame) : default_months df = all_months df.
Proof.
  unfold default_months, selected_months, initialise.
  apply filter_fixpoint, Forall_forall. intros m Hm.
  unfold checkbox. now rewrite update_months_sets.
Qed.

Lemma covers_intro {A : Type} (eqb : A -> A -> bool) (values col : list A) :
  (forall a, eqb a a = true) ->
  (forall x, In x col -> In x values) -> covers eqb values col = true.
Proof.
  intros Hrefl Hincl. apply forallb_forall. intros x Hx.
  apply existsb_exists. exists x. split; [now apply Hincl | apply Hrefl].
Qed.

Lemma same_values_intro {A : Type} (eqb : A -> A -> bool) (values col : list A) :
  (forall a, eqb a a = true) ->
  (forall x, In x values <-> In x col) -> same_values eqb values col = true.
Proof.
  intros Hrefl Hsame. unfold same_values.
  rewrite !covers_intro; auto; intros x; apply Hsame.
Qed.

Lemma default_selection_full (df : DataFrame) :
  full_selection df (default_years df) (default_months df) (default_platforms df)
  = true.
Proof.
  unfold full_selection. rewrite default_months_all.
  rewrite !same_values_intro; try reflexivity.
  - apply String.eqb_refl.
  - intros p. apply unique_In. apply String.eqb_eq.
  - apply String.eqb_refl.
  - apply all_months_In.
  - apply Z.eqb_refl.
  - intros y. apply unique_In. apply Z.eqb_eq.
Qed.

(** * The example of the specification, evaluated *)

Example example_view_rows :
  example_view = firstn 2 example_df.
Proof. reflexivity. Qed.

Example example_figures :
  (current_sales example_view == 300)%Q
  /\ (total_profit example_view == 90)%Q
  /\ (exists m, margin (total_profit example_view) (current_sales example_view) = Some m
                /\ (m == 30)%Q)
  /\ (exists p, progress_ratio (current_sales example_view) 250 = Some p
                /\ (p == 12 # 10)%Q)
  /\ goal_note 250 (current_sales example_view) = Surplus 50.
Proof.
  split; [reflexivity |]. split; [reflexivity |].
  split; [eexists; split; reflexivity |].
  split; [eexists; split; reflexivity |]. reflexivity.
Qed.

Example example_monthly_perf :
  monthly_perf example_view
  = [mkMonthlyRow 1 "Jan" 100 40; mkMonthlyRow 2 "Feb" 200 50].
Proof. reflexivity. Qed.

Example example_top_5 : top_5 example_df = ["Adidas"; "Nike"]%string.
Proof. reflexivity. Qed.

Example example_app_renders :
  exists page,
    app example_source example_ui = Rendered page
    /\ dash_view page = example_view.
Proof. eexists. split; reflexivity. Qed.

(** * The theorems at the example *)

Lemma filtered_df_empty_selection_witness :
  ([2023] = [] \/ @nil string = [] \/ ["Amazon"]%string = [])
  /\ filtered_df example_df [2023] [] ["Amazon"]%string = [].
Proof.
  split.
  - right. left. reflexivity.
  - apply (filtered_df_empty_selection example_df [2023] [] ["Amazon"]%string).
    right. left. reflexivity.
Defined.

Lemma full_selection_preserves_sales_witness :
  full_selection example_df [2024; 2023] ["Jan"; "Feb"]%string
    ["Amazon"; "eBay"]%string = true
  /\ current_sales
       (filtered_df example_df [2024; 2023] ["Jan"; "Feb"]%string
          ["Amazon"; "eBay"]%string)
     = current_sales example_df.
Proof.
  split.
  - reflexivity.
  - apply (full_selection_preserves_sales example_df [2024; 2023]
             ["Jan"; "Feb"]%string ["Amazon"; "eBay"]%string).
    reflexivity.
Defined.

Lemma no_brand_source_fails : load_fails no_brand_source.
Proof.
  right. right. unfold lacks_column, no_brand_source.
  eexists. eexists. exists "Brand"%string.
  split; [reflexivity |]. split.
  - simpl. tauto.
  - simpl. intros H. repeat (destruct H as [H | H]; [discriminate H |]). exact H.
Defined.

Lemma load_failure_stops_the_run_witness :
  load_fails no_brand_source
  /\ load_data no_brand_source = Raise (KeyError ["Brand"%string])
  /\ app no_brand_source example_ui = Stopped (KeyError ["Brand"%string])
  /\ exists e,
       load_data no_brand_source = Raise e
       /\ app no_brand_source example_ui = Stopped e.
Proof.
  split; [exact no_brand_source_fails |].
  split; [reflexivity |]. split; [reflexivity |].
  destruct (load_failure_stops_the_run no_brand_source example_ui
              no_brand_source_fails) as [[e [Hload [Happ _]]] _].
  exists e. split; assumption.
Defined.

Lemma monthly_perf_one_entry_per_month_ascending_witness :
  load_data example_source = Ok example_df
  /\ StronglySorted Z.lt (map mp_MonthNum (monthly_perf example_view))
  /\ NoDup (map mp_MonthNum (monthly_perf example_view)).
Proof.
  split; [reflexivity |].
  destruct (monthly_perf_one_entry_per_month_ascending example_source example_df
              [2023] ["Jan"; "Feb"]%string ["Amazon"; "eBay"]%string eq_refl)
    as [_ [_ [_ [Hup Hnodup]]]].
  split; [exact Hup | exact Hnodup].
Defined.

(** * Further properties of the script *)

(** ** Loading *)

Lemma select_columns_present (want : list string) (s : Sheet) :
  (forall c, In c want -> In c (sheet_columns s)) ->
  select_columns want s = Ok (sheet_lines s).
Proof.
  intros Hall. unfold select_columns.
  replace (filter (fun c => negb (has_column (sheet_columns s) c)) want)
    with (@nil string); [reflexivity |].
  symmetry. induction want as [| c want IH]; simpl; [reflexivity |].
  rewrite (proj2 (has_column_In (sheet_columns s) c)) by (apply Hall; now left).
  simpl. apply IH. intros c' Hc'. apply Hall. now right.
Qed.

(** X1.  The load succeeds exactly on a workbook that has the eight
    labels, whatever other columns it has and in whatever order, and at
    least one line; the data frame then has one derived row per line of the
    sheet, in the order of the sheet.  A sheet with the labels and no line
    fails at the [.dt] accessor. *)
Theorem load_data_succeeds_iff :
  forall (path : Source) (df : DataFrame),
    (load_data path = Ok df
     <-> exists cols lines,
           path = Workbook cols lines
           /\ (forall c, In c required_columns -> In c cols)
           /\ lines <> []
           /\ df = map derive lines)
    /\ (forall cols,
          (forall c, In c required_columns -> In c cols) ->
          load_data (Workbook cols []) = Raise AttributeError).
Proof.
  intros path df. split; [split |].
  - intros Hload.
    destruct (load_data_Ok_inv path df Hload)
      as [cols [lines [-> [Hsel [Hlines ->]]]]].
    exists cols, lines. split; [reflexivity |].
    split; [| split; [exact Hlines | reflexivity]].
    intros c Hc. destruct (in_dec string_dec c cols) as [Hin | Hout];
      [exact Hin | exfalso].
    destruct (select_columns_missing required_columns (mkSheet cols lines) c
                Hc Hout) as [missing [_ Hraise]].
    rewrite Hraise in Hsel. discriminate.
  - intros [cols [lines [-> [Hcols [Hlines ->]]]]].
    unfold load_data. cbn [read_excel bind].
    rewrite (select_columns_present required_columns (mkSheet cols lines) Hcols).
    cbn [bind sheet_lines].
    destruct lines as [| l lines]; [contradiction | reflexivity].
  - intros cols Hcols. unfold load_data. cbn [read_excel bind].
    now rewrite (select_columns_present required_columns (mkSheet cols []) Hcols).
Qed.

(** ** The month check-boxes *)

Lemma set_flag_other (st : SessionState) (m k : string) (status : bool) :
  k <> m -> set_flag st m status k = st k.
Proof.
  intros Hne. unfold set_flag.
  destruct (String.eqb k m) eqn:E; [| reflexivity].
  apply String.eqb_eq in E. contradiction.
Qed.

Lemma update_months_other (months : list string) (status : bool)
    (st : SessionState) (k : string) :
  ~ In k months -> update_months months status st k = st k.
Proof.
  unfold update_months. revert st.
  induction months as [| m months IH]; intros st Hout; simpl; [reflexivity |].
  rewrite IH by (intros Hin; apply Hout; now right).
  apply set_flag_other. intros ->. apply Hout. now left.
Qed.

(** X4.  [update_months] gives the status to the flag of every month of the
    list and leaves every other key of the session as it was. *)
Theorem update_months_sets_listed_only :
  forall (months : list string) (status : bool) (st : SessionState) (k : string),
    (In k months -> update_months months status st k = Some status)
    /\ (~ In k months -> update_months months status st k = st k).
Proof.
  intros months status st k. split.
  - apply update_months_sets.
  - apply update_months_other.
Qed.

(** X5.  Of two presses in a row only the second one counts: "All" then
    "None" leaves the session as "None" alone does, and conversely. *)
Theorem update_months_last_press_wins :
  forall (months : list string) (first second : bool) (st : SessionState)
         (k : string),
    update_months months second (update_months months first st) k
    = update_months months second st k.
Proof.
  intros months first second st k.
  destruct (in_dec string_dec k months) as [Hin | Hout].
  - now rewrite !update_months_sets.
  - now rewrite !update_months_other.
Qed.

Lemma keep_no_month (years : list Z) (platforms : list string) (df : DataFrame) :
  filtered_df df years [] platforms = [].
Proof.
  rewrite filtered_df_filter.
  induction df as [| r df IH]; simpl; [reflexivity |].
  unfold keep at 1. simpl. now rewrite andb_false_r.
Qed.

Lemma selected_months_none (months : list string) (st : SessionState) :
  (forall m, In m months -> st m = Some false) ->
  selected_months months st = [].
Proof.
  intros Hoff. unfold selected_months.
  induction months as [| m months IH]; simpl; [reflexivity |].
  unfold checkbox at 1. rewrite (Hoff m) by now left.
  apply IH. intros m' Hm'. apply Hoff. now right.
Qed.

Lemma selected_months_all (months : list string) (st : SessionState) :
  (forall m, In m months -> st m = Some true) ->
  selected_months months st = months.
Proof.
  intros Hon. unfold selected_months.
  apply filter_fixpoint, Forall_forall. intros m Hm.
  unfold checkbox. now rewrite (Hon m Hm).
Qed.

(** X6.  When the data has a January row, the run that follows a press on
    "None" has no month ticked and shows the empty view, whatever the years
    and the platforms selected. *)
Theorem none_button_empties_the_view :
  forall (df : DataFrame) (ui : Controls),
    In "Jan"%string (all_months df) ->
    selected_months (all_months df)
      (initialise (all_months df) (month_flags (press df false ui))) = []
    /\ dash_view (render df (press df false ui)) = [].
Proof.
  intros df ui Hjan.
  assert (Hinit : initialise (all_months df) (month_flags (press df false ui))
                  = month_flags (press df false ui)).
  { unfold initialise. simpl. now rewrite (update_months_sets _ _ _ _ Hjan). }
  assert (Hnone : selected_months (all_months df)
                    (initialise (all_months df) (month_flags (press df false ui)))
                  = []).
  { rewrite Hinit. apply selected_months_none. intros m Hm. simpl.
    now apply update_months_sets. }
  split; [exact Hnone |].
  unfold render. cbn [dash_view]. rewrite Hnone. apply keep_no_month.
Qed.

(** X7.  When the data has no January row the key the script tests is never
    in the session, so every run ticks all the months again: after a press
    on "None" (or "All") the view is the one with every month selected. *)
Theorem no_january_resets_the_months :
  forall (df : DataFrame) (ui : Controls) (status : bool),
    ~ In "Jan"%string (all_months df) ->
    month_flags ui "Jan"%string = None ->
    selected_months (all_months df)
      (initialise (all_months df) (month_flags (press df status ui)))
    = all_months df
    /\ dash_view (render df (press df status ui))
       = filtered_df df (year_filter ui) (all_months df) (platform_filter ui).
Proof.
  intros df ui status Hjan Hfresh.
  assert (Hall : selected_months (all_months df)
                   (initialise (all_months df) (month_flags (press df status ui)))
                 = all_months df).
  { unfold initialise. simpl.
    rewrite (update_months_other _ _ _ _ Hjan), Hfresh.
    apply selected_months_all. intros m Hm. now apply update_months_sets. }
  split; [exact Hall |].
  unfold render. cbn [dash_view]. now rewrite Hall.
Qed.

(** X8.  On a first run, with the two multiselects at their defaults, the
    view is the whole data set. *)
Theorem first_run_shows_everything :
  forall (df : DataFrame) (target : Q),
    dash_view (render df (first_run df target)) = df.
Proof.
  intros df target. unfold render. cbn [dash_view first_run year_filter
    month_flags platform_filter].
  apply full_selection_keeps_all. apply default_selection_full.
Qed.

(** ** Sorted lists of options *)

Lemma insert_sorted_In {A : Type} (leb : A -> A -> bool) (x y : A) (l : list A) :
  In y (insert_sorted leb x l) <-> y = x \/ In y l.
Proof.
  induction l as [| z l IH]; simpl.
  - intuition.
  - destruct (leb x z); simpl; [| rewrite IH]; intuition.
Qed.

Lemma sorted_In {A : Type} (leb : A -> A -> bool) (y : A) (l : list A) :
  In y (sorted leb l) <-> In y l.
Proof.
  unfold sorted. induction l as [| x l IH]; simpl.
  - reflexivity.
  - rewrite insert_sorted_In, IH. intuition.
Qed.

Lemma insert_sorted_NoDup {A : Type} (leb : A -> A -> bool) (x : A) (l : list A) :
  ~ In x l -> NoDup l -> NoDup (insert_sorted leb x l).
Proof.
  intros Hx Hl. induction Hl as [| z l Hz Hl IH]; simpl.
  - constructor; [intros [] | constructor].
  - destruct (leb x z).
    + constructor; [exact Hx | now constructor].
    + constructor.
      * rewrite insert_sorted_In. intros [-> | Hin]; [| contradiction].
        apply Hx. now left.
      * apply IH. intros Hin. apply Hx. now right.
Qed.

Lemma sorted_NoDup {A : Type} (leb : A -> A -> bool) (l : list A) :
  NoDup l -> NoDup (sorted leb l).
Proof.
  unfold sorted. induction 1 as [| x l Hx _ IH]; simpl; [constructor |].
  apply insert_sorted_NoDup; [| exact IH].
  intros Hin. apply Hx. now apply (sorted_In leb x l).
Qed.

Lemma insert_sorted_ordered {A : Type} (leb : A -> A -> bool) (x : A) (l : list A) :
  (forall a b, leb a b = true \/ leb b a = true) ->
  (forall a b c, leb a b = true -> leb b c = true -> leb a c = true) ->
  StronglySorted (fun a b => leb a b = true) l ->
  StronglySorted (fun a b => leb a b = true) (insert_sorted leb x l).
Proof.
  intros Htotal Htrans. induction 1 as [| z l Hl IH Hall]; simpl.
  - repeat constructor.
  - destruct (leb x z) eqn:E.
    + constructor; [now constructor |].
      constructor; [exact E |].
      eapply Forall_impl; [| exact Hall].
      intros c Hc. exact (Htrans _ _ _ E Hc).
    + constructor; [exact IH |].
      apply Forall_forall. intros c Hc.
      apply insert_sorted_In in Hc. destruct Hc as [-> | Hc].
      * destruct (Htotal x z) as [H | H]; [congruence | exact H].
      * rewrite Forall_forall in Hall. now apply Hall.
Qed.

Lemma sorted_ordered {A : Type} (leb : A -> A -> bool) (l : list A) :
  (forall a b, leb a b = true \/ leb b a = true) ->
  (forall a b c, leb a b = true -> leb b c = true -> leb a c = true) ->
  StronglySorted (fun a b => leb a b = true) (sorted leb l).
Proof.
  intros Htotal Htrans. unfold sorted.
  induction l as [| x l IH]; simpl; [constructor |].
  now apply insert_sorted_ordered.
Qed.

(** In a sorted list without repetition every element differs from the
    ones behind it. *)
Lemma StronglySorted_distinct {A : Type} (R : A -> A -> Prop) (l : list A) :
  StronglySorted R l -> NoDup l ->
  StronglySorted (fun a b => R a b /\ a <> b) l.
Proof.
  induction 1 as [| x l _ IH Hall]; intros Hnodup; [constructor |].
  inversion Hnodup as [| ? ? Hx Hl]; subst.
  constructor; [now apply IH |].
  rewrite Forall_forall in *. intros y Hy. split; [now apply Hall |].
  intros ->. contradiction.
Qed.

Lemma StronglySorted_weaken {A : Type} (R R' : A -> A -> Prop) (l : list A) :
  (forall a b, R a b -> R' a b) -> StronglySorted R l -> StronglySorted R' l.
Proof.
  intros Himp. induction 1 as [| x l _ IH Hall]; constructor; [exact IH |].
  eapply Forall_impl; [| exact Hall]. intros y. apply Himp.
Qed.

Lemma unique_NoDup {A : Type} (eqb : A -> A -> bool) (col : list A) :
  (forall a, eqb a a = true) -> NoDup (unique eqb col).
Proof.
  intros Hrefl. induction col as [| x col IH]; simpl; constructor.
  - intros Hin. apply filter_In in Hin. destruct Hin as [_ Hne].
    now rewrite Hrefl in Hne.
  - now apply NoDup_filter.
Qed.

Lemma sort_values_sorted {A : Type} (key : A -> Z) (l : list A) :
  sort_values key l = sorted (fun a b => key a <=? key b) l.
Proof.
  unfold sort_values, sorted. induction l as [| x l IH]; simpl; [reflexivity |].
  rewrite IH. generalize (fold_right (insert_sorted (fun a b => key a <=? key b)) [] l).
  intros s. induction s as [| y s IHs]; simpl; [reflexivity |].
  now rewrite IHs.
Qed.

Lemma String_leb_compare (a b : string) :
  String.leb a b = true <-> a = b \/ String.compare a b = Lt.
Proof.
  unfold String.leb. destruct (String.compare a b) eqn:E.
  - apply String.compare_eq_iff in E. intuition.
  - intuition.
  - split; [discriminate |]. intros [-> | H]; [| discriminate].
    rewrite String_compare_refl in E. discriminate.
Qed.

Lemma String_leb_trans (a b c : string) :
  String.leb a b = true -> String.leb b c = true -> String.leb a c = true.
Proof.
  rewrite !String_leb_compare.
  intros [-> | Hab] [-> | Hbc]; auto.
  right. exact (cmp_trans _ _ _ Hab Hbc).
Qed.

(** X9.  The year options list every year of the data once, latest first;
    the platform options list every platform of the data once, in the order
    of the strings; and every default of the two multiselects is one of its
    options. *)
Theorem sidebar_options_cover_the_data :
  forall df : DataFrame,
    StronglySorted (fun a b => b < a) (year_options df)
    /\ (forall y, In y (year_options df) <-> In y (map Year df))
    /\ (forall y, In y (default_years df) -> In y (year_options df))
    /\ StronglySorted (klt String.compare) (platform_options df)
    /\ (forall p, In p (platform_options df) <-> In p (map Platform df))
    /\ (forall p, In p (default_platforms df) -> In p (platform_options df)).
Proof.
  intros df.
  assert (Hy : forall y, In y (year_options df) <-> In y (map Year df)).
  { intros y. unfold year_options. rewrite sorted_In.
    apply unique_In. intros a b. apply Z.eqb_eq. }
  assert (Hp : forall p, In p (platform_options df) <-> In p (map Platform df)).
  { intros p. unfold platform_options. rewrite sorted_In.
    apply unique_In. intros a b. apply String.eqb_eq. }
  split; [| split; [exact Hy | split; [| split; [| split; [exact Hp |]]]]].
  - unfold year_options.
    apply (StronglySorted_weaken (fun a b => (b <=? a) = true /\ a <> b)).
    + intros a b [Hle Hne]. apply Z.leb_le in Hle. lia.
    + apply StronglySorted_distinct.
      * apply sorted_ordered.
        -- intros a b. rewrite !Z.leb_le. lia.
        -- intros a b c. rewrite !Z.leb_le. lia.
      * apply sorted_NoDup, unique_NoDup, Z.eqb_refl.
  - intros y Hin. apply Hy. unfold default_years in Hin.
    exact (proj1 (unique_In Z.eqb (map Year df) y Z.eqb_eq) Hin).
  - unfold platform_options.
    apply (StronglySorted_weaken (fun a b => String.leb a b = true /\ a <> b)).
    + intros a b [Hle Hne]. apply String_leb_compare in Hle.
      destruct Hle as [-> | Hlt]; [contradiction | exact Hlt].
    + apply StronglySorted_distinct.
      * apply sorted_ordered; [apply String.leb_total | apply String_leb_trans].
      * apply sorted_NoDup, unique_NoDup, String.eqb_refl.
  - intros p Hin. apply Hp. unfold default_platforms in Hin.
    exact (proj1 (unique_In String.eqb (map Platform df) p String.eqb_eq) Hin).
Qed.

(** ** The months of the sidebar *)

Lemma month_abbr_inj (m1 m2 : Month) : month_abbr m1 = month_abbr m2 -> m1 = m2.
Proof. destruct m1, m2; simpl; intros E; (reflexivity || discriminate E). Qed.

Lemma pair_eqb_refl (a : Z * string) : pair_eqb a a = true.
Proof. now apply pair_eqb_true. Qed.

(** X10.  For a loaded data set the month check-boxes come in calendar
    order: the lookup has strictly increasing month numbers, each with the
    abbreviation of that month; no month name occurs twice (so no two
    check-boxes share a key); and the names are exactly the month names of
    the data. *)
Theorem all_months_in_calendar_order :
  forall (path : Source) (df : DataFrame),
    load_data path = Ok df ->
    StronglySorted Z.lt (map fst (month_lookup df))
    /\ Forall (fun p => exists m, p = (month_num m, month_abbr m)) (month_lookup df)
    /\ NoDup (all_months df)
    /\ (forall name, In name (all_months df) <-> In name (map MonthName df)).
Proof.
  intros path df Hload.
  assert (Hcal : forall p, In p (month_lookup df) ->
                           exists m, p = (month_num m, month_abbr m)).
  { intros p Hp. rewrite month_lookup_In, in_map_iff in Hp.
    destruct Hp as [r [<- Hr]].
    assert (Hrows := load_data_calendar path df Hload).
    rewrite Forall_forall in Hrows. destruct (Hrows r Hr) as [m [Hn Hs]].
    exists m. now rewrite Hn, Hs. }
  assert (Hsorted : StronglySorted
                      (fun a b => (fst a <=? fst b) = true /\ a <> b)
                      (month_lookup df)).
  { unfold month_lookup. rewrite sort_values_sorted.
    apply StronglySorted_distinct.
    - apply sorted_ordered.
      + intros a b. rewrite !Z.leb_le. lia.
      + intros a b c. rewrite !Z.leb_le. lia.
    - apply sorted_NoDup, unique_NoDup, pair_eqb_refl. }
  split; [| split; [| split]].
  - apply (StronglySorted_map_In
             (fun a b => (fst a <=? fst b) = true /\ a <> b) Z.lt fst);
      [| exact Hsorted].
    intros a b Ha Hb [Hle Hne]. apply Z.leb_le in Hle.
    destruct (Hcal a Ha) as [ma ->], (Hcal b Hb) as [mb ->]. simpl in *.
    destruct (Z.eq_dec (month_num ma) (month_num mb)) as [E | E]; [| lia].
    apply month_num_inj in E. subst mb. now contradiction Hne.
  - apply Forall_forall. exact Hcal.
  - unfold all_months.
    apply (StronglySorted_NoDup_irrefl (fun s1 s2 : string => s1 <> s2)).
    + intros s Hs. now apply Hs.
    + apply (StronglySorted_map_In
               (fun a b => (fst a <=? fst b) = true /\ a <> b)
               (fun s1 s2 : string => s1 <> s2) snd);
        [| exact Hsorted].
      intros a b Ha Hb [_ Hne] Hname.
      destruct (Hcal a Ha) as [ma ->], (Hcal b Hb) as [mb ->]. simpl in *.
      apply month_abbr_inj in Hname. subst mb. now contradiction Hne.
  - apply all_months_In.
Qed.

Lemma all_months_in_calendar_order_witness :
  load_data example_source = Ok example_df
  /\ NoDup (all_months example_df)
  /\ StronglySorted Z.lt (map fst (month_lookup example_df)).
Proof.
  split; [reflexivity |].
  destruct (all_months_in_calendar_order example_source example_df eq_refl)
    as [Hup [_ [Hnodup _]]].
  split; [exact Hnodup | exact Hup].
Defined.

Lemma none_button_empties_the_view_witness :
  In "Jan"%string (all_months example_df)
  /\ dash_view (render example_df (press example_df false example_ui)) = [].
Proof.
  assert (Hjan : In "Jan"%string (all_months example_df)) by (left; reflexivity).
  split; [exact Hjan |].
  exact (proj2 (none_button_empties_the_view example_df example_ui Hjan)).
Defined.

Lemma february_has_no_january : ~ In "Jan"%string (all_months february_df).
Proof.
  simpl. intros [H | H]; [discriminate H | exact H].
Defined.

Lemma no_january_resets_the_months_witness :
  ~ In "Jan"%string (all_months february_df)
  /\ month_flags example_ui "Jan"%string = None
  /\ dash_view (render february_df (press february_df false example_ui))
     = filtered_df february_df (year_filter example_ui) (all_months february_df)
         (platform_filter example_ui).
Proof.
  split; [exact february_has_no_january |].
  split; [reflexivity |].
  exact (proj2 (no_january_resets_the_months february_df example_ui false
                  february_has_no_january eq_refl)).
Defined.

(** ** Algebra of the filter *)

Lemma selected_incl years years' months months' platforms platforms' r :
  incl years years' -> incl months months' -> incl platforms platforms' ->
  selected years months platforms r -> selected years' months' platforms' r.
Proof.
  intros Hy Hm Hp [Hry [Hrm Hrp]]. repeat split; auto.
Qed.

(** X11.  Selecting more never removes a row: when each of the three
    selections grows, the old view is a subsequence of the new one. *)
Theorem filtered_df_monotone :
  forall (df : DataFrame) (years years' : list Z)
         (months months' platforms platforms' : list string),
    incl years years' -> incl months months' -> incl platforms platforms' ->
    Subseq (filtered_df df years months platforms)
           (filtered_df df years' months' platforms').
Proof.
  intros df years years' months months' platforms platforms' Hy Hm Hp.
  rewrite !filtered_df_filter.
  apply Subseq_into_filter; [apply Subseq_filter |].
  apply Forall_forall. intros r Hr. apply filter_In in Hr.
  destruct Hr as [_ Hr]. apply keep_selected in Hr. apply keep_selected.
  exact (selected_incl _ _ _ _ _ _ r Hy Hm Hp Hr).
Qed.

(** X12.  The view depends on the selections as sets only: their order and
    repetitions in them do not matter. *)
Theorem filtered_df_selection_as_sets :
  forall (df : DataFrame) (years years' : list Z)
         (months months' platforms platforms' : list string),
    (forall y, In y years <-> In y years') ->
    (forall m, In m months <-> In m months') ->
    (forall p, In p platforms <-> In p platforms') ->
    filtered_df df years months platforms
    = filtered_df df years' months' platforms'.
Proof.
  intros df years years' months months' platforms platforms' Hy Hm Hp.
  rewrite !filtered_df_filter. apply filter_ext.
  intros r. apply eq_true_iff_eq. rewrite !keep_selected.
  unfold selected. rewrite Hy, Hm, Hp. reflexivity.
Qed.

Lemma filter_filter_swap {A : Type} (f g : A -> bool) (l : list A) :
  filter f (filter g l) = filter g (filter f l).
Proof.
  induction l as [| x l IH]; simpl; [reflexivity |].
  destruct (f x) eqn:Ef, (g x) eqn:Eg; simpl; rewrite ?Ef, ?Eg, IH; reflexivity.
Qed.

(** X13.  Two filters in a row commute, and what they keep are the rows of
    the data set that both selections select. *)
Theorem filtered_df_twice :
  forall (df : DataFrame) (y1 y2 : list Z) (m1 m2 p1 p2 : list string),
    filtered_df (filtered_df df y1 m1 p1) y2 m2 p2
    = filtered_df (filtered_df df y2 m2 p2) y1 m1 p1
    /\ (forall r, In r (filtered_df (filtered_df df y1 m1 p1) y2 m2 p2)
                  <-> In r df /\ selected y1 m1 p1 r /\ selected y2 m2 p2 r).
Proof.
  intros df y1 y2 m1 m2 p1 p2. split.
  - rewrite (filtered_df_filter (filtered_df df y1 m1 p1)).
    rewrite (filtered_df_filter (filtered_df df y2 m2 p2)).
    rewrite !filtered_df_filter. apply filter_filter_swap.
  - intros r. rewrite (filtered_df_filter (filtered_df df y1 m1 p1)).
    rewrite filtered_df_filter, !filter_In, !keep_selected. tauto.
Qed.

Lemma filtered_df_monotone_witness :
  incl [2023] [2023; 2024]
  /\ Subseq (filtered_df example_df [2023] ["Jan"]%string ["Amazon"]%string)
            (filtered_df example_df [2023; 2024] ["Jan"; "Feb"]%string
               ["Amazon"; "eBay"]%string).
Proof.
  assert (Hy : incl [2023] [2023; 2024]) by (intros y [<- | []]; now left).
  split; [exact Hy |].
  apply (filtered_df_monotone example_df [2023] [2023; 2024]
           ["Jan"]%string ["Jan"; "Feb"]%string
           ["Amazon"]%string ["Amazon"; "eBay"]%string Hy).
  - intros m [<- | []]. now left.
  - intros p [<- | []]. now left.
Defined.

Lemma filtered_df_selection_as_sets_witness :
  filtered_df example_df [2023; 2024] ["Jan"]%string ["Amazon"]%string
  = filtered_df example_df [2024; 2023; 2024] ["Jan"; "Jan"]%string
      ["Amazon"]%string.
Proof.
  apply (filtered_df_selection_as_sets example_df [2023; 2024] [2024; 2023; 2024]
           ["Jan"]%string ["Jan"; "Jan"]%string ["Amazon"]%string ["Amazon"]%string).
  - intros y. simpl. tauto.
  - intros m. simpl. tauto.
  - intros p. reflexivity.
Defined.

(** ** Gauge and progress bar *)

Lemma ratio_at_least_one (sales target : Q) :
  (0 < target)%Q -> ((1 <= sales / target)%Q <-> (target <= sales)%Q).
Proof.
  intros Hpos. split.
  - intros Hone. destruct (Qlt_le_dec sales target) as [Hlt | Hle]; [| exact Hle].
    exfalso. apply (Qlt_not_le (sales / target) 1); [| exact Hone].
    apply Qlt_shift_div_r; [exact Hpos |]. now rewrite Qmult_1_l.
  - intros Hle. apply Qle_shift_div_l; [exact Hpos |]. now rewrite Qmult_1_l.
Qed.

Lemma progress_ratio_value (sales target : Q) :
  ((0 < target)%Q /\ progress_ratio sales target = Some (sales / target)%Q)
  \/ ((target <= 0)%Q /\ progress_ratio sales target = Some 0%Q).
Proof.
  unfold progress_ratio. destruct (Qgt_bool target 0) eqn:E.
  - left. apply Qgt_bool_true in E. split; [exact E |].
    apply div_defined. intros H0. rewrite H0 in E. exact (Qlt_irrefl _ E).
  - right. apply Qgt_bool_false in E. split; [exact E | reflexivity].
Qed.

Lemma min_le_r (a b : Q) : (min a b <= b)%Q.
Proof.
  unfold min. destruct (Qgt_bool a b) eqn:E.
  - apply Qle_refl.
  - now apply Qgt_bool_false in E.
Qed.

Lemma min_le_l (a b : Q) : (min a b <= a)%Q.
Proof.
  unfold min. destruct (Qgt_bool a b) eqn:E.
  - apply Qgt_bool_true in E. now apply Qlt_le_weak.
  - apply Qle_refl.
Qed.

Lemma min_glb (a b c : Q) : (c <= a)%Q -> (c <= b)%Q -> (c <= min a b)%Q.
Proof. intros Ha Hb. unfold min. now destruct (Qgt_bool a b). Qed.

(** X14.  The value handed to the progress bar never exceeds 1, is not
    negative when the sales are not, is 1 exactly when a positive target is
    reached, and is negative when the sales are negative against a positive
    target. *)
Theorem progress_value_range :
  forall sales target : Q,
    exists ratio,
      progress_ratio sales target = Some ratio
      /\ (progress_value ratio <= 1)%Q
      /\ ((0 <= sales)%Q -> (0 <= progress_value ratio)%Q)
      /\ ((0 < target)%Q -> ((progress_value ratio == 1)%Q <-> (target <= sales)%Q))
      /\ ((0 < target)%Q -> (sales < 0)%Q -> (progress_value ratio < 0)%Q).
Proof.
  intros sales target.
  destruct (progress_ratio_value sales target) as [[Hpos ->] | [Hneg ->]];
    eexists; (split; [reflexivity |]); unfold progress_value.
  - split; [apply min_le_r |]. split; [| split].
    + intros Hsales. apply min_glb; [| discriminate].
      apply Qle_shift_div_l; [exact Hpos |]. now rewrite Qmult_0_l.
    + intros _. rewrite <- (ratio_at_least_one sales target Hpos). split.
      * intros Hone. rewrite <- Hone. apply min_le_l.
      * intros Hone. apply Qle_antisym; [apply min_le_r |].
        apply min_glb; [exact Hone | apply Qle_refl].
    + intros _ Hsales. apply Qle_lt_trans with (sales / target)%Q;
        [apply min_le_l |].
      apply Qlt_shift_div_r; [exact Hpos |]. now rewrite Qmult_0_l.
  - split; [apply min_le_r |]. split; [| split].
    + intros _. apply min_glb; [apply Qle_refl | discriminate].
    + intros Hpos. exfalso. exact (Qlt_not_le _ _ Hpos Hneg).
    + intros Hpos. exfalso. exact (Qlt_not_le _ _ Hpos Hneg).
Qed.

Lemma bar_color_green (ratio : Q) :
  bar_color ratio = "#32CD32"%string <-> (1 <= ratio)%Q.
Proof.
  unfold bar_color. destruct (Qle_bool 1 ratio) eqn:E.
  - apply Qle_bool_iff in E. tauto.
  - split; [discriminate |]. intros H. apply Qle_bool_iff in H. congruence.
Qed.

(** X15.  With a positive target the gauge bar is green exactly when the
    target is reached, which is exactly when the line beside the progress
    bar reports a surplus and not a gap; with a target that is not positive
    the bar is never green. *)
Theorem bar_color_agrees_with_goal_note :
  forall sales target : Q,
    exists ratio,
      progress_ratio sales target = Some ratio
      /\ ((0 < target)%Q ->
          (bar_color ratio = "#32CD32"%string <-> (target <= sales)%Q)
          /\ (bar_color ratio = "#32CD32"%string
              <-> exists s, goal_note target sales = Surplus s))
      /\ ((target <= 0)%Q -> bar_color ratio = "#F4A460"%string).
Proof.
  intros sales target.
  destruct (progress_ratio_value sales target) as [[Hpos ->] | [Hneg ->]];
    eexists; (split; [reflexivity |]).
  - split.
    + intros _.
      assert (Hgreen : bar_color (sales / target) = "#32CD32"%string
                       <-> (target <= sales)%Q).
      { rewrite bar_color_green. now apply ratio_at_least_one. }
      split; [exact Hgreen |]. rewrite Hgreen.
      destruct (goal_note_cases target sales) as [[Hlt ->] | [Hle ->]].
      * split.
        -- intros Hle. exfalso. exact (Qlt_not_le _ _ Hlt Hle).
        -- intros [s Hs]. discriminate Hs.
      * split; [intros _; eexists; reflexivity | intros _; exact Hle].
    + intros Hneg. exfalso. exact (Qlt_not_le _ _ Hpos Hneg).
  - split.
    + intros Hpos. exfalso. exact (Qlt_not_le _ _ Hpos Hneg).
    + intros _. reflexivity.
Qed.

Lemma max_ge_l (a b : Q) : (a <= max a b)%Q.
Proof.
  unfold max. destruct (Qgt_bool b a) eqn:E.
  - apply Qgt_bool_true in E. now apply Qlt_le_weak.
  - apply Qle_refl.
Qed.

Lemma max_ge_r (a b : Q) : (b <= max a b)%Q.
Proof.
  unfold max. destruct (Qgt_bool b a) eqn:E.
  - apply Qle_refl.
  - now apply Qgt_bool_false in E.
Qed.

(** X16.  With a positive target the gauge axis reaches strictly beyond
    both the sales shown and the target marked on it. *)
Theorem axis_range_holds_value_and_threshold :
  forall target sales : Q,
    (0 < target)%Q ->
    (sales < axis_range_max target sales)%Q
    /\ (target < axis_range_max target sales)%Q.
Proof.
  intros target sales Hpos. unfold axis_range_max.
  assert (Hm : (0 < max target sales)%Q).
  { apply Qlt_le_trans with target; [exact Hpos | apply max_ge_l]. }
  assert (Hgrow : (max target sales < max target sales * (11 # 10))%Q).
  { rewrite <- (Qmult_1_r (max target sales)) at 1.
    apply Qmult_lt_l; [exact Hm | reflexivity]. }
  split.
  - apply Qle_lt_trans with (max target sales); [apply max_ge_r | exact Hgrow].
  - apply Qle_lt_trans with (max target sales); [apply max_ge_l | exact Hgrow].
Qed.

Lemma axis_range_holds_value_and_threshold_witness :
  (0 < 250)%Q
  /\ (300 < axis_range_max 250 300)%Q
  /\ (250 < axis_range_max 250 300)%Q.
Proof.
  split; [reflexivity |].
  apply (axis_range_holds_value_and_threshold 250 300). reflexivity.
Defined.

(** ** The page under an empty selection *)

Lemma filtered_df_nothing_selected df years months platforms :
  years = [] \/ months = [] \/ platforms = [] ->
  filtered_df df years months platforms = [].
Proof.
  intros Hempty. rewrite filtered_df_filter.
  induction df as [| r df IH]; simpl; [reflexivity |].
  replace (keep years months platforms r) with false; [exact IH |].
  unfold keep. destruct Hempty as [-> | [-> | ->]]; simpl;
    rewrite ?andb_false_r; reflexivity.
Qed.

(** X17.  When no year is selected, or no platform, or no month is ticked,
    the whole page is the page of the empty view: no row, revenue and
    profit 0, margin 0 and progress 0 without any division, no monthly
    total, no top brand, and with a positive target a gap of the full
    target. *)
Theorem empty_selection_empties_the_page :
  forall (df : DataFrame) (ui : Controls),
    year_filter ui = []
    \/ platform_filter ui = []
    \/ selected_months (all_months df)
         (initialise (all_months df) (month_flags ui)) = [] ->
    let page := render df ui in
    dash_view page = []
    /\ dash_current_sales page = 0%Q
    /\ dash_total_profit page = 0%Q
    /\ dash_margin page = Some 0%Q
    /\ (exists ratio, dash_progress_ratio page = Some ratio /\ (ratio == 0)%Q)
    /\ dash_monthly_perf page = []
    /\ dash_top_5 page = []
    /\ ((0 < sales_target ui)%Q ->
        exists g, dash_goal_note page = Gap g /\ (g == sales_target ui)%Q).
Proof.
  intros df ui Hempty page.
  assert (Hview : dash_view page = []).
  { subst page. unfold render. cbn [dash_view].
    apply filtered_df_nothing_selected. tauto. }
  subst page. unfold render in *. cbn [dash_view] in Hview.
  cbn [dash_view dash_current_sales dash_total_profit dash_margin
       dash_progress_ratio dash_monthly_perf dash_top_5 dash_goal_note].
  rewrite Hview.
  split; [reflexivity |]. split; [reflexivity |]. split; [reflexivity |].
  split; [reflexivity |]. split.
  - destruct (progress_ratio_value (current_sales []) (sales_target ui))
      as [[_ ->] | [_ ->]]; eexists; (split; [reflexivity |]).
    + unfold current_sales. simpl. rewrite sum_nil. unfold Qdiv.
      apply Qmult_0_l.
    + reflexivity.
  - split; [reflexivity |]. split; [reflexivity |].
    intros Hpos.
    destruct (goal_note_cases (sales_target ui) (current_sales []))
      as [[_ ->] | [Hle _]].
    + eexists. split; [reflexivity |].
      unfold current_sales. simpl. rewrite sum_nil. ring.
    + exfalso. exact (Qlt_not_le _ _ Hpos Hle).
Qed.

Lemma empty_selection_empties_the_page_witness :
  dash_view (render example_df (press example_df false example_ui)) = []
  /\ dash_margin (render example_df (press example_df false example_ui))
     = Some 0%Q
  /\ dash_top_5 (render example_df (press example_df false example_ui)) = [].
Proof.
  destruct (empty_selection_empties_the_page example_df
              (press example_df false example_ui)
              (or_intror (or_intror eq_refl)))
    as [Hview [_ [_ [Hmargin [_ [_ [Htop _]]]]]]].
  split; [exact Hview |]. split; [exact Hmargin | exact Htop].
Defined.

(** ** Brands by platform *)

Lemma brand_platform_compare_Lt (a b : string * string) :
  brand_platform_compare a b = Lt <->
  String.compare (fst a) (fst b) = Lt
  \/ (fst a = fst b /\ String.compare (snd a) (snd b) = Lt).
Proof.
  unfold brand_platform_compare.
  destruct (String.compare (fst a) (fst b)) eqn:E.
  - apply String.compare_eq_iff in E. intuition congruence.
  - intuition.
  - split; [discriminate |]. intros [H | [Heq _]]; [discriminate H |].
    rewrite Heq, String_compare_refl in E. discriminate E.
Qed.

#[export] Instance brand_platform_compare_KeyOrder : KeyOrder brand_platform_compare.
Proof.
  split.
  - intros [b1 p1] [b2 p2]. unfold brand_platform_compare. simpl. split.
    + destruct (String.compare b1 b2) eqn:E; try discriminate.
      apply String.compare_eq_iff in E. intros Hp.
      apply String.compare_eq_iff in Hp. congruence.
    + intros Heq. inversion Heq; subst.
      now rewrite !String_compare_refl.
  - intros [b1 p1] [b2 p2]. unfold brand_platform_compare. simpl.
    rewrite (String.compare_antisym b1 b2).
    destruct (String.compare b2 b1); simpl; try reflexivity.
    apply String.compare_antisym.
  - intros a b c Hab Hbc.
    apply brand_platform_compare_Lt in Hab.
    apply brand_platform_compare_Lt in Hbc.
    apply brand_platform_compare_Lt.
    destruct Hab as [Hab | [Hab Hab']], Hbc as [Hbc | [Hbc Hbc']].
    + left. exact (cmp_trans _ _ _ Hab Hbc).
    + left. now rewrite <- Hbc.
    + left. now rewrite Hab.
    + right. split; [congruence |]. exact (cmp_trans _ _ _ Hab' Hbc').
Qed.

(** The rows the chart is drawn from: those of the top brands. *)
Lemma top_brand_rows (view : DataFrame) :
  boolean_index view (isin String.eqb (map Brand view) (top_5 view))
  = filter (fun r => existsb (String.eqb (Brand r)) (top_5 view)) view.
Proof. rewrite isin_map. apply boolean_index_map. Qed.

Lemma brand_plat_filtered_keys (view : DataFrame) :
  map fst (brand_plat_filtered view)
  = group_keys brand_platform_compare
      (map brand_platform_key
         (filter (fun r => existsb (String.eqb (Brand r)) (top_5 view)) view)).
Proof.
  unfold brand_plat_filtered, groupby. rewrite top_brand_rows, !map_map.
  simpl. apply map_id.
Qed.

Lemma filter_filter_and {A : Type} (f g : A -> bool) (l : list A) :
  filter f (filter g l) = filter (fun x => g x && f x) l.
Proof.
  induction l as [| x l IH]; simpl; [reflexivity |].
  destruct (g x); simpl; [destruct (f x) |]; now rewrite IH.
Qed.

(** X18.  The bars of the brand chart are keyed by (brand, platform) in
    ascending order without repetition; there is a bar exactly for each top
    brand and each platform on which the view has a row of that brand; and
    a bar carries the sales of the rows of the view with its brand and its
    platform. *)
Theorem brand_plat_filtered_bars :
  forall view : DataFrame,
    let bars := brand_plat_filtered view in
    StronglySorted (klt brand_platform_compare) (map fst bars)
    /\ (forall b p,
          In (b, p) (map fst bars)
          <-> In b (top_5 view)
              /\ exists r, In r view /\ Brand r = b /\ Platform r = p)
    /\ (forall e, In e bars ->
          snd e
          = sum (map Sales_Amount
                   (filter (fun r => String.eqb (Brand r) (fst (fst e))
                                     && String.eqb (Platform r) (snd (fst e)))
                           view))).
Proof.
  intros view bars. subst bars.
  assert (Hkeys : forall b p,
             In (b, p) (map fst (brand_plat_filtered view))
             <-> In b (top_5 view)
                 /\ exists r, In r view /\ Brand r = b /\ Platform r = p).
  { intros b p. rewrite brand_plat_filtered_keys.
    rewrite (group_keys_In brand_platform_compare), in_map_iff. split.
    - intros [r [Hkey Hr]]. apply filter_In in Hr. destruct Hr as [Hr Htop].
      apply existsb_String_eqb in Htop. inversion Hkey; subst.
      split; [exact Htop |]. now exists r.
    - intros [Htop [r [Hr [<- <-]]]]. exists r. split; [reflexivity |].
      apply filter_In. split; [exact Hr |]. now apply existsb_String_eqb. }
  split; [| split; [exact Hkeys |]].
  - rewrite brand_plat_filtered_keys.
    apply group_keys_sorted. exact brand_platform_compare_KeyOrder.
  - intros e He.
    assert (Hin : In (fst e) (map fst (brand_plat_filtered view)))
      by now apply in_map.
    destruct e as [[b p] v]. simpl in *.
    apply Hkeys in Hin. destruct Hin as [Htop _].
    unfold brand_plat_filtered, groupby in He.
    rewrite top_brand_rows, map_map in He. simpl in He.
    apply in_map_iff in He. destruct He as [k [Hk _]].
    inversion Hk; subst. f_equal. f_equal.
    rewrite filter_filter_and. apply filter_ext. intros r.
    destruct (String.eqb (Brand r) b) eqn:Eb.
    + apply String.eqb_eq in Eb.
      rewrite (proj2 (existsb_String_eqb (Brand r) (top_5 view)))
        by (now rewrite Eb).
      simpl. apply eq_true_iff_eq.
      rewrite (key_eqb_true brand_platform_compare), String.eqb_eq.
      unfold brand_platform_key. rewrite Eb.
      split; [intros E; now inversion E | intros ->; reflexivity].
    + simpl. rewrite andb_comm.
      replace (key_eqb brand_platform_compare (brand_platform_key r) (b, p))
        with false; [reflexivity |].
      symmetry. apply not_true_is_false. intros Hkey.
      apply (key_eqb_true brand_platform_compare) in Hkey.
      inversion Hkey; subst. rewrite String.eqb_refl in Eb. discriminate.
Qed.

(** ** Groups as a partition of the view *)

Lemma filter_none {A : Type} (l : list A) : filter (fun _ => false) l = [].
Proof. induction l; simpl; auto. Qed.

(** Two tests that never hold together split the rows that pass either
    of them. *)
Lemma filter_either_Permutation {A : Type} (p q : A -> bool) (l : list A) :
  (forall x, In x l -> p x = true -> q x = true -> False) ->
  Permutation (filter p l ++ filter q l) (filter (fun x => p x || q x) l).
Proof.
  induction l as [| x l IH]; intros Hdisj; simpl; [constructor |].
  assert (IH' := IH (fun y Hy => Hdisj y (or_intror Hy))).
  assert (Hx := Hdisj x (or_introl eq_refl)).
  destruct (p x) eqn:Ep, (q x) eqn:Eq; simpl.
  - exfalso. now apply Hx.
  - now constructor.
  - apply Permutation_sym, Permutation_cons_app, Permutation_sym, IH'.
  - exact IH'.
Qed.

Section GroupsPartition.
Context {K : Type} (cmp : K -> K -> comparison) `{KeyOrder K cmp}.

(** The groups of any duplicate-free list of keys hold, together, the rows
    that carry one of these keys, each row once. *)
Lemma groups_among_Permutation (key : Row -> K) (df : DataFrame) (keys : list K) :
  NoDup keys ->
  Permutation
    (List.concat (map (fun k => filter (fun r => key_eqb cmp (key r) k) df) keys))
    (filter (fun r => existsb (key_eqb cmp (key r)) keys) df).
Proof.
  induction 1 as [| k keys Hfresh _ IH]; simpl.
  - rewrite filter_none. constructor.
  - eapply Permutation_trans; [apply Permutation_app_head, IH |].
    apply filter_either_Permutation.
    intros r _ Hk Hrest. apply (key_eqb_true cmp) in Hk.
    apply existsb_exists in Hrest. destruct Hrest as [k' [Hk' Heq]].
    apply (key_eqb_true cmp) in Heq. subst. contradiction.
Qed.

(** Grouping loses no row and holds none twice. *)
Lemma groupby_Permutation (key : Row -> K) (df : DataFrame) :
  Permutation (List.concat (map snd (groupby cmp key df))) df.
Proof.
  unfold groupby. rewrite map_map. simpl.
  eapply Permutation_trans;
    [apply groups_among_Permutation, (group_keys_NoDup cmp) |].
  rewrite filter_fixpoint; [apply Permutation_refl |].
  apply Forall_forall. intros r Hr.
  apply existsb_exists. exists (key r). split.
  - apply (group_keys_In cmp). now apply in_map.
  - now apply (key_eqb_true cmp).
Qed.

Lemma groupby_rows (key : Row -> K) (df : DataFrame) (g : K * DataFrame) (r : Row) :
  In g (groupby cmp key df) -> (In r (snd g) <-> In r df /\ key r = fst g).
Proof.
  unfold groupby. intros Hg. apply in_map_iff in Hg.
  destruct Hg as [k [<- _]]. simpl.
  rewrite filter_In, (key_eqb_true cmp). reflexivity.
Qed.

Lemma groupby_keys (key : Row -> K) (df : DataFrame) :
  map fst (groupby cmp key df) = group_keys cmp (map key df).
Proof. unfold groupby. rewrite map_map. simpl. apply map_id. Qed.

End GroupsPartition.

Lemma exact_sum_app (l1 l2 : list Q) :
  (exact_sum (l1 ++ l2) == exact_sum l1 + exact_sum l2)%Q.
Proof.
  induction l1 as [| x l1 IH]; simpl; [ring |]. rewrite IH. ring.
Qed.

Lemma exact_sum_Permutation (l1 l2 : list Q) :
  Permutation l1 l2 -> (exact_sum l1 == exact_sum l2)%Q.
Proof.
  induction 1 as [| x l1 l2 _ IH | x y l | l1 l2 l3 _ IH1 _ IH2]; simpl.
  - reflexivity.
  - now rewrite IH.
  - ring.
  - now rewrite IH1.
Qed.

Lemma exact_sum_concat (val : Row -> Q) (groups : list DataFrame) :
  (exact_sum (map (fun rows => exact_sum (map val rows)) groups)
   == exact_sum (map val (List.concat groups)))%Q.
Proof.
  induction groups as [| rows groups IH]; simpl; [reflexivity |].
  now rewrite map_app, exact_sum_app, IH.
Qed.

Lemma exact_sum_of_groups (val : Row -> Q) (groups : list DataFrame)
    (view : DataFrame) :
  Permutation (List.concat groups) view ->
  (exact_sum (map (fun rows => exact_sum (map val rows)) groups)
   == exact_sum (map val view))%Q.
Proof.
  intros Hperm. rewrite exact_sum_concat.
  apply exact_sum_Permutation. now apply Permutation_map.
Qed.

(** Against C10 as it stands: three sales of 0.1, 0.2 and 2.2, the first and
    the last in one month and of one brand.  In binary64 the revenue of the
    view is 2.5, the two monthly sums add up to the next number above it,
    and so do the two brand sums. *)
Lemma group_sums_round_away_from_current_sales :
  current_sales64 rounding_view = binary64 (25 # 10)
  /\ PrimFloat.eqb (sum64 (monthly_sales64 rounding_view))
                   (current_sales64 rounding_view) = false
  /\ PrimFloat.eqb (sum64 (brand_sales64 rounding_view))
                   (current_sales64 rounding_view) = false.
Proof. split; [| split]; vm_compute; reflexivity. Qed.

(** C10, amended.  Each grouping partitions the rows of the view: the groups
    by month and the groups by brand, taken together, are a rearrangement of
    the view; a group holds the rows of the view that carry its key and no
    other; no key has two groups; and the entries of [monthly_perf] and of
    [brand_sales] are these groups, one entry per group.  So the sales of
    the groups, added exactly, add up to the sales of the view added
    exactly; the binary64 sums the library computes need not. *)
Theorem grouping_partitions_the_view :
  forall view : DataFrame,
    let months := groupby month_key_compare month_key view in
    let brands := groupby String.compare Brand view in
    Permutation (List.concat (map snd months)) view
    /\ Permutation (List.concat (map snd brands)) view
    /\ (forall g r, In g months -> (In r (snd g) <-> In r view /\ month_key r = fst g))
    /\ (forall g r, In g brands -> (In r (snd g) <-> In r view /\ Brand r = fst g))
    /\ NoDup (map fst months)
    /\ NoDup (map fst brands)
    /\ map mp_key (monthly_perf view) = map fst months
    /\ map fst (brand_sales view) = map fst brands
    /\ (exact_sum (map (fun rows => exact_sum (map Sales_Amount rows)) (map snd months))
        == exact_sum (map Sales_Amount view))%Q
    /\ (exact_sum (map (fun rows => exact_sum (map Sales_Amount rows)) (map snd brands))
        == exact_sum (map Sales_Amount view))%Q.
Proof.
  intros view months brands. subst months brands.
  assert (Hm := groupby_Permutation month_key_compare month_key view).
  assert (Hb := groupby_Permutation String.compare Brand view).
  repeat match goal with |- _ /\ _ => split end.
  - exact Hm.
  - exact Hb.
  - intros g r. apply (groupby_rows month_key_compare).
  - intros g r. apply (groupby_rows String.compare).
  - rewrite (groupby_keys month_key_compare).
    apply (group_keys_NoDup month_key_compare).
  - rewrite (groupby_keys String.compare).
    apply (group_keys_NoDup String.compare).
  - rewrite monthly_perf_keys. symmetry. apply (groupby_keys month_key_compare).
  - rewrite brand_sales_brands. symmetry. apply (groupby_keys String.compare).
  - now apply exact_sum_of_groups.
  - now apply exact_sum_of_groups.
Qed.

(** ** The rows behind the bars of a brand *)

Lemma filter_map_swap {A B : Type} (f : A -> B) (p : B -> bool) (l : list A) :
  filter p (map f l) = map f (filter (fun x => p (f x)) l).
Proof.
  induction l as [| x l IH]; simpl; [reflexivity |].
  destruct (p (f x)); simpl; now rewrite IH.
Qed.

(** X19.  The bars of a top brand are drawn from a partition of its rows:
    the groups behind them, put end to end, are a rearrangement of the rows
    of the view that belong to the brand, so that no sale of the brand is
    left out of the chart and none is counted in two bars. *)
Theorem bars_partition_the_brand_rows :
  forall (view : DataFrame) (b : string),
    In b (top_5 view) ->
    Permutation (rows_of_bars view b)
                (filter (fun r => String.eqb (Brand r) b) view)
    /\ brand_plat_filtered view
       = map (fun g => (fst g, sum (map Sales_Amount (snd g))))
             (brand_plat_groups view).
Proof.
  intros view b Htop. split; [| reflexivity].
  unfold rows_of_bars, brand_plat_groups, groupby.
  rewrite top_brand_rows.
  set (rows := filter (fun r => existsb (String.eqb (Brand r)) (top_5 view)) view).
  set (keys := group_keys brand_platform_compare (map brand_platform_key rows)).
  rewrite filter_map_swap, map_map. simpl.
  eapply Permutation_trans.
  { apply (groups_among_Permutation brand_platform_compare brand_platform_key rows
             (filter (fun k => String.eqb (fst k) b) keys)).
    apply NoDup_filter, (group_keys_NoDup brand_platform_compare). }
  replace (filter (fun r => String.eqb (Brand r) b) view)
    with (filter (fun r => String.eqb (Brand r) b) rows).
  - rewrite (filter_ext_in
               (fun r => existsb (key_eqb brand_platform_compare (brand_platform_key r))
                           (filter (fun k => String.eqb (fst k) b) keys))
               (fun r => String.eqb (Brand r) b) rows);
      [apply Permutation_refl |].
    intros r Hr. apply eq_true_iff_eq.
    rewrite existsb_exists, String.eqb_eq. split.
    + intros [k [Hk Heq]]. apply filter_In in Hk. destruct Hk as [_ Hb].
      apply (key_eqb_true brand_platform_compare) in Heq. subst k.
      now apply String.eqb_eq in Hb.
    + intros Hb. exists (brand_platform_key r). split.
      * apply filter_In. split.
        -- subst keys. apply (group_keys_In brand_platform_compare).
           now apply in_map.
        -- simpl. now apply String.eqb_eq.
      * now apply (key_eqb_true brand_platform_compare).
  - subst rows. rewrite filter_filter_swap. apply filter_fixpoint.
    apply Forall_forall. intros r Hr. apply filter_In in Hr.
    destruct Hr as [_ Hb]. apply String.eqb_eq in Hb.
    apply existsb_String_eqb. now rewrite Hb.
Qed.

Lemma bars_partition_the_brand_rows_witness :
  In "Nike"%string (top_5 example_df)
  /\ Permutation (rows_of_bars example_df "Nike")
                 (filter (fun r => String.eqb (Brand r) "Nike") example_df).
Proof.
  assert (Htop : In "Nike"%string (top_5 example_df))
    by (right; left; reflexivity).
  split; [exact Htop |].
  exact (proj1 (bars_partition_the_brand_rows example_df "Nike"%string Htop)).
Defined.

(** ** How a run ends *)

Lemma st_progress_in_range (v : Q) :
  (0 <= v)%Q -> (v <= 1)%Q -> st_progress (Some v) = Ok tt.
Proof.
  intros H0 H1. unfold st_progress.
  now rewrite (proj2 (Qle_bool_iff 0 v) H0), (proj2 (Qle_bool_iff v 1) H1).
Qed.

Lemma st_progress_negative (v : Q) :
  (v < 0)%Q -> st_progress (Some v) = Raise StreamlitAPIException.
Proof.
  intros Hneg. unfold st_progress.
  destruct (Qle_bool 0 v) eqn:E; [| reflexivity].
  apply Qle_bool_iff in E. exfalso. exact (Qlt_not_le _ _ Hneg E).
Qed.



Example refund_interrupts_the_run :
  app refund_source example_ui = Interrupted StreamlitAPIException.
Proof. reflexivity. Qed.
